(** * ModeDashboardExecutionsExtractor

    A shallow embedding of
    [databuilder/extractor/dashboard/mode_dashboard_executions_extractor.py]
    and of the collaborators it configures, followed by the properties of
    the extractor.

    Python objects are embedded as values, methods as functions that
    pass the object explicitly, exceptions as the [Raise] outcome of a
    small state-and-exception monad whose state is the trace of the
    observable effects (HTTP requests sent, transformer calls entered). *)

From Stdlib Require Import ZArith String Ascii List Bool Lia.
From stdpp Require Import gmap strings list fin_maps pretty.

Set Warnings "-register-all".

Local Open Scope string_scope.
Local Open Scope Z_scope.

(** ** Python values *)

Module Python.

(** What [response.json()] returns, and what a record dictionary maps
    its field names to.  Numbers are the integers; an object keeps its
    members in document order. *)
Inductive json : Type :=
| JNull
| JBool (b : bool)
| JNum (z : Z)
| JStr (s : string)
| JArr (items : list json)
| JObj (members : list (string * json)).

(** The values [extract] of an [Extractor] may hand out ([Any] in the
    type comments of the source): [None], scalars, a list, a record
    dictionary, or an instance of a model class built from keyword
    arguments. *)
Inductive pyval : Type :=
| PNone
| PBool (b : bool)
| PInt (z : Z)
| PStr (s : string)
| PList (items : list json)
| PDict (d : gmap string json)
| PModel (cls : string) (kwargs : gmap string json).

(** [bool(v)], the test behind [if not v]. An instance of a class
    that defines neither [__bool__] nor [__len__] is true. *)
Definition truthy (v : pyval) : bool :=
  match v with
  | PNone => false
  | PBool b => b
  | PInt z => negb (z =? 0)
  | PStr s => negb (String.eqb s "")
  | PList items => negb (Nat.eqb (length items) 0)
  | PDict d => negb (Nat.eqb (size d) 0)
  | PModel _ _ => true
  end.

Definition json_truthy (v : json) : bool :=
  match v with
  | JNull => false
  | JBool b => b
  | JNum z => negb (z =? 0)
  | JStr s => negb (String.eqb s "")
  | JArr items => negb (Nat.eqb (length items) 0)
  | JObj members => negb (Nat.eqb (length members) 0)
  end.

Fixpoint join (sep : string) (parts : list string) : string :=
  match parts with
  | [] => ""
  | [p] => p
  | p :: rest => p +:+ sep +:+ join sep rest
  end.

(** [repr(v)]. A string is put between single quotes; the escapes
    Python adds for quotes and control characters are not rendered. *)
Fixpoint py_repr (v : json) : string :=
  match v with
  | JNull => "None"
  | JBool true => "True"
  | JBool false => "False"
  | JNum z => pretty z
  | JStr s => "'" +:+ s +:+ "'"
  | JArr items => "[" +:+ join ", " (map py_repr items) +:+ "]"
  | JObj members =>
      "{" +:+ join ", " (map (fun kv => "'" +:+ fst kv +:+ "': " +:+ py_repr (snd kv)) members)
          +:+ "}"
  end.

(** [str(v)], which [str.format] applies to a substituted value. *)
Definition py_str (v : json) : string :=
  match v with
  | JStr s => s
  | _ => py_repr v
  end.

Inductive Exception : Type :=
| ConfigMissingException (key : string)
| KeyError (key : string)
| ValueError (msg : string)
| TypeError (msg : string)
| AttributeError (msg : string)
| HTTPError (url : string)
| GenericException (msg : string).

(** [requests.auth.HTTPBasicAuth(username, password)]. *)
Record HTTPBasicAuth : Type := mkHTTPBasicAuth {
  username : string;
  password : string
}.

(** The observable effects: a GET request sent by [requests], and a
    call [self._transformer.transform(record=record)] made by the
    extractor. *)
Inductive Event : Type :=
| EvHttpGet (url : string) (params : gmap string HTTPBasicAuth)
| EvTransform (record : pyval).

Inductive Outcome (A : Type) : Type :=
| Return (a : A)
| Raise (e : Exception).
Arguments Return {A} a.
Arguments Raise {A} e.

(** A computation reads the trace so far and extends it; what was
    sent before an exception stays sent. *)
Definition M (A : Type) : Type := list Event -> Outcome A * list Event.

Definition ret {A} (a : A) : M A := fun tr => (Return a, tr).
Definition raise {A} (e : Exception) : M A := fun tr => (Raise e, tr).
Definition emit (ev : Event) : M unit := fun tr => (Return tt, (tr ++ [ev])%list).
Definition bind {A B} (c : M A) (k : A -> M B) : M B :=
  fun tr =>
    match c tr with
    | (Return a, tr') => k a tr'
    | (Raise e, tr') => (Raise e, tr')
    end.
Definition lift {A} (o : Outcome A) : M A := fun tr => (o, tr).

(** The same for code that has no effect but may raise. *)
Definition obind {A B} (o : Outcome A) (k : A -> Outcome B) : Outcome B :=
  match o with
  | Return a => k a
  | Raise e => Raise e
  end.

End Python.

Export Python.

Declare Scope py_scope.
Delimit Scope py_scope with py.
Notation "x <- c ;; k" := (bind c (fun x => k))
  (at level 100, c at next level, right associativity) : py_scope.
Notation "c ;;; k" := (bind c (fun _ => k))
  (at level 100, right associativity) : py_scope.
Notation "x <~ o ;; k" := (obind o (fun x => k))
  (at level 100, o at next level, right associativity) : py_scope.
Local Open Scope py_scope.

(** ** Query plans

    [databuilder.rest_api]: a query is either a seed, which holds the
    records to start from, or one GET step joined to the query that feeds
    it.  The fields are the arguments of the two constructors, in the
    order and under the names the extractor passes them. *)

Module RestApi.

Inductive BaseRestApiQuery : Type :=
| RestApiQuerySeed (seed_record : list (gmap string json))
| RestApiQuery (query_to_join : BaseRestApiQuery)
               (url : string)
               (params : gmap string HTTPBasicAuth)
               (json_path : string)
               (field_names : list string)
               (fail_no_result skip_no_result json_path_contains_or : bool).

(** The steps of a plan, innermost (first executed) first. *)
Record Step : Type := mkStep {
  step_url : string;
  step_params : gmap string HTTPBasicAuth;
  step_json_path : string;
  step_field_names : list string;
  step_fail_no_result : bool;
  step_skip_no_result : bool;
  step_json_path_contains_or : bool
}.

Fixpoint steps (q : BaseRestApiQuery) : list Step :=
  match q with
  | RestApiQuerySeed _ => []
  | RestApiQuery inner url params json_path field_names f s o =>
      (steps inner ++ [mkStep url params json_path field_names f s o])%list
  end.

Fixpoint seed_of (q : BaseRestApiQuery) : list (gmap string json) :=
  match q with
  | RestApiQuerySeed seed_record => seed_record
  | RestApiQuery inner _ _ _ _ _ _ _ => seed_of inner
  end.

End RestApi.

Export RestApi.

(** ** Configuration trees

    [pyhocon.ConfigTree]: a tree whose leaves are strings (what a HOCON
    file or [from_dict] gives this extractor) or, for the query handed
    to the REST extractor, a Python object.  A key with dots is a path. *)

Module Pyhocon.

Inductive ConfigValue : Type :=
| CStr (s : string)
| CQuery (q : BaseRestApiQuery)
| CTree (t : gmap string ConfigValue).

Fixpoint split_dots_from (s cur : string) : list string :=
  match s with
  | EmptyString => [cur]
  | String c rest =>
      if Ascii.eqb c "."
      then cur :: split_dots_from rest ""
      else split_dots_from rest (cur +:+ String c "")
  end.

(** [ConfigTree.parse_key] for keys without quoted parts. *)
Definition split_dots (key : string) : list string := split_dots_from key "".

(** [merge_configs]: where both sides hold a tree the trees are merged,
    elsewhere the value of [self] stands before the fallback's. *)
Fixpoint with_fallback_value (self fallback : ConfigValue) : ConfigValue :=
  match self, fallback with
  | CTree ts, CTree tf =>
      CTree (union_with (fun x y => Some (with_fallback_value x y)) ts tf)
  | _, _ => self
  end.

Definition merge_trees (self fallback : gmap string ConfigValue) : gmap string ConfigValue :=
  union_with (fun x y => Some (with_fallback_value x y)) self fallback.

(** [self.with_fallback(config)]. [self] is whatever
    [Scoped.get_scoped_conf] returned: when the scope names a leaf it is
    no tree and has no such method. *)
Definition with_fallback (self : ConfigValue) (fallback : gmap string ConfigValue)
  : Outcome (gmap string ConfigValue) :=
  match self with
  | CTree ts => Return (merge_trees ts fallback)
  | _ => Raise (AttributeError "with_fallback")
  end.

Inductive Lookup : Type :=
| Found (v : ConfigValue)
| Missing
| WrongType.

Fixpoint get_path (t : gmap string ConfigValue) (path : list string) : Lookup :=
  match path with
  | [] => Found (CTree t)
  | k :: rest =>
      match t !! k with
      | None => Missing
      | Some v =>
          match rest, v with
          | [], _ => Found v
          | _, CTree sub => get_path sub rest
          | _, _ => WrongType
          end
      end
  end.

(** [conf.get(key)] *)
Definition get (conf : gmap string ConfigValue) (key : string) : Outcome ConfigValue :=
  match get_path conf (split_dots key) with
  | Found v => Return v
  | Missing => Raise (ConfigMissingException key)
  | WrongType => Raise (TypeError key)
  end.

(** [conf.get(key, default)] *)
Definition get_default (conf : gmap string ConfigValue) (key : string) (default : ConfigValue)
  : ConfigValue :=
  match get_path conf (split_dots key) with
  | Found v => v
  | _ => default
  end.

(** [str(v)] of a configuration value. For a value that is no string
    Python prints the object; only its kind is rendered here. *)
Definition config_str (v : ConfigValue) : string :=
  match v with
  | CStr s => s
  | CQuery _ => "<RestApiQuery>"
  | CTree _ => "ConfigTree()"
  end.

(** [conf.get_string(key)] *)
Definition get_string (conf : gmap string ConfigValue) (key : string) : Outcome string :=
  v <~ get conf key ;; Return (config_str v).

Fixpoint put_path (t : gmap string ConfigValue) (path : list string) (v : ConfigValue)
  : gmap string ConfigValue :=
  match path with
  | [] => t
  | k :: rest =>
      match rest with
      | [] =>
          match t !! k, v with
          | Some (CTree old), CTree new => <[k := CTree (merge_trees new old)]> t
          | _, _ => <[k := v]> t
          end
      | _ =>
          let sub := match t !! k with Some (CTree s) => s | _ => ∅ end in
          <[k := CTree (put_path sub rest v)]> t
      end
  end.

(** [ConfigFactory.from_dict], applied to a dict display whose items
    are listed in order (a nested dict is given as its tree). *)
Definition from_dict (items : list (string * ConfigValue)) : gmap string ConfigValue :=
  foldl (fun t kv => put_path t (split_dots (fst kv)) (snd kv)) ∅ items.

End Pyhocon.

Export Pyhocon.

Abbreviation ConfigTree := (gmap string ConfigValue).

(** ** What the extractor imports

    The modules the extractor imports from its own package are not among
    the sources that are verified here.  What they declare and the
    extractor only refers to by name is left open: the configuration
    keys, the scopes of the three components, and the defaults of the
    keyword arguments of [RestApiQuery] that a call may leave out.  A
    configuration key is a single name, and the two keys of the REST
    extractor differ. *)

Class Databuilder : Type := {
  REST_API_QUERY : string;
  STATIC_RECORD_DICT : string;
  MODEL_CLASS : string;
  FIELD_NAME : string;
  rest_api_extractor_scope : string;
  timestamp_string_to_epoch_scope : string;
  dict_to_model_scope : string;
  default_fail_no_result : bool;
  default_skip_no_result : bool;
  default_json_path_contains_or : bool;
  keys_simple :
    Forall (fun k => split_dots k = [k])
           [REST_API_QUERY; STATIC_RECORD_DICT; MODEL_CLASS; FIELD_NAME];
  keys_distinct : REST_API_QUERY <> STATIC_RECORD_DICT
}.

(** The two libraries whose answers depend on the world outside:
    [requests.get(url, **params)] followed by [raise_for_status()] and
    [json()], which is [None] when any of them raises, and
    [jsonpath_rw.parse(json_path).find(document)] with the values of
    the matches. *)
Class Env : Type := {
  http_get : string -> gmap string HTTPBasicAuth -> option json;
  jsonpath_find : string -> json -> list json
}.

(** ** Executing a query plan

    [RestApiQuerySeed.execute] and [RestApiQuery.execute] of
    [databuilder.rest_api], the generic query-join engine, are not among
    the sources.  The spec describes the engine as sequential GET steps,
    "each consuming fields produced by the prior step and extracting a
    field projection from the JSON response via a path expression;
    unresolved results may be skipped", yielding "one flattened record at
    a time".

    [execute] returns a generator.  Since the answers of the server are a
    function of the request, the generator is given by the finite sequence
    of what it will do when it is advanced: send a request, yield a
    record, raise, or stop. *)

Module RestApiExecution.

Inductive Generator : Type :=
| GStop
| GRaise (e : Exception)
| GRequest (url : string) (params : gmap string HTTPBasicAuth) (rest : Generator)
| GYield (r : gmap string json) (rest : Generator).

Fixpoint gen_app (g1 g2 : Generator) : Generator :=
  match g1 with
  | GStop => g2
  | GRaise e => GRaise e
  | GRequest url params rest => GRequest url params (gen_app rest g2)
  | GYield r rest => GYield r (gen_app rest g2)
  end.

(** [for record_dict in g: body(record_dict)] inside a generator. *)
Fixpoint for_each (g : Generator) (body : gmap string json -> Generator) : Generator :=
  match g with
  | GStop => GStop
  | GRaise e => GRaise e
  | GRequest url params rest => GRequest url params (for_each rest body)
  | GYield r rest => gen_app (body r) (for_each rest body)
  end.

Definition gen_of_list (records : list (gmap string json)) : Generator :=
  foldr GYield GStop records.

(** [next(g)]: the requests on the way to the next record are sent;
    [None] stands for [StopIteration]. *)
Fixpoint next (g : Generator) : M (option (gmap string json) * Generator) :=
  match g with
  | GStop => ret (None, GStop)
  | GRaise e => raise e
  | GRequest url params rest => emit (EvHttpGet url params) ;;; next rest
  | GYield r rest => ret (Some r, rest)
  end.

(** [str.format] applied to the record as keyword arguments, for a
    template whose replacement fields are plain names between braces, as
    the templates of this extractor are. *)
Fixpoint format_from (template : string) (field : option string) (record : gmap string json)
  : Outcome string :=
  match template, field with
  | EmptyString, None => Return ""
  | EmptyString, Some _ => Raise (ValueError "expected '}' before end of string")
  | String c rest, None =>
      if Ascii.eqb c "{" then format_from rest (Some "") record
      else if Ascii.eqb c "}" then Raise (ValueError "Single '}' encountered in format string")
      else s <~ format_from rest None record ;; Return (String c s)
  | String c rest, Some name =>
      if Ascii.eqb c "}" then
        match record !! name with
        | None => Raise (KeyError name)
        | Some v => s <~ format_from rest None record ;; Return (py_str v +:+ s)
        end
      else format_from rest (Some (name +:+ String c "")) record
  end.

(** Modelled from the spec: [RestApiQuery._preprocess_url], which is
    missing; a step consumes the "fields produced by the prior step" by
    putting them into its URL. *)
Definition _preprocess_url (template : string) (record : gmap string json) : Outcome string :=
  format_from template None record.

(** The names of the replacement fields of a template. *)
Fixpoint placeholders_from (template : string) (field : option string) : list string :=
  match template, field with
  | EmptyString, _ => []
  | String c rest, None =>
      if Ascii.eqb c "{" then placeholders_from rest (Some "")
      else placeholders_from rest None
  | String c rest, Some name =>
      if Ascii.eqb c "}" then name :: placeholders_from rest None
      else placeholders_from rest (Some (name +:+ String c ""))
  end.

Definition placeholders (template : string) : list string :=
  placeholders_from template None.

(** [result_list[i:i + n] for i in range(0, len(result_list), n)] *)
Fixpoint chunks (fuel n : nat) (l : list json) : list (list json) :=
  match fuel, l with
  | O, _ => []
  | _, [] => []
  | S fuel', _ => take n l :: chunks fuel' n (drop n l)
  end.

(** [result_list[j] for j in range(0, len(result_list), step)] *)
Fixpoint every (fuel step : nat) (l : list json) : list json :=
  match fuel, l with
  | O, _ => []
  | _, [] => []
  | S fuel', x :: _ => x :: every fuel' step (drop step l)
  end.

(** Modelled from the spec: [RestApiQuery._compute_sub_records], which
    is missing.  With an or path "either field may independently produce
    array entries that must be zipped": the result list holds the first
    field of all entries, then the second field of all entries.  With a
    comma path it holds the fields of the first entry, then those of the
    second. *)
Definition _compute_sub_records (result_list : list json) (field_names : list string)
    (json_path_contains_or : bool) : Outcome (list (list json)) :=
  match field_names with
  | [] => Raise (GenericException "Field names should not be empty")
  | _ =>
      if negb json_path_contains_or
      then Return (chunks (length result_list) (length field_names) result_list)
      else
        let num_subresult := (length result_list / length field_names)%nat in
        Return (map (fun i => every (length result_list) num_subresult (drop i result_list))
                    (seq 0 num_subresult))
  end.

(** [record_dict[field_name] = sub_record.pop(0)] for each field name. *)
Fixpoint assign (field_names : list string) (sub_record : list json)
    (record_dict : gmap string json) : gmap string json :=
  match field_names, sub_record with
  | name :: names, v :: vs => assign names vs (<[name := v]> record_dict)
  | _, _ => record_dict
  end.

(** Modelled from the spec: the loop of [RestApiQuery.execute] over
    the sub-records, which is missing: one that is empty or has not one
    value per field name is passed over ("entries lacking a resolvable
    last-run link are skipped rather than erroring"). *)
Fixpoint yield_sub_records (field_names : list string) (record_dict : gmap string json)
    (sub_records : list (list json)) : Generator :=
  match sub_records with
  | [] => GStop
  | sub_record :: rest =>
      if Nat.eqb (length sub_record) 0
         || negb (Nat.eqb (length sub_record) (length field_names))
      then yield_sub_records field_names record_dict rest
      else
        let record_dict := assign field_names sub_record record_dict in
        GYield record_dict (yield_sub_records field_names record_dict rest)
  end.

(** Modelled from the spec: the body of the loop of
    [RestApiQuery.execute] for one record of the joined query, which is
    missing.  The URL is filled from the record and requested; the path
    is applied to the response; without result the step fails, skips the
    record, or passes the record on as it is, by its two flags; with a
    result it yields the record once per sub-record, extended by the
    fields of the step. *)
Definition join_step `{Env} (st : Step) (record_dict : gmap string json) : Generator :=
  match _preprocess_url (step_url st) record_dict with
  | Raise e => GRaise e
  | Return url =>
      GRequest url (step_params st)
        match http_get url (step_params st) with
        | None => GRaise (HTTPError url)
        | Some response_json =>
            let result_list := jsonpath_find (step_json_path st) response_json in
            let sub_records :=
              match _compute_sub_records result_list (step_field_names st)
                                         (step_json_path_contains_or st) with
              | Raise e => GRaise e
              | Return subs => yield_sub_records (step_field_names st) record_dict subs
              end in
            match result_list with
            | [] =>
                if step_fail_no_result st then GRaise (GenericException "No result")
                else if step_skip_no_result st then GStop
                else GYield record_dict sub_records
            | _ => sub_records
            end
        end
  end.

(** Modelled from the spec: [execute] of the two query classes, which
    is missing: a seed yields its records, a step runs its loop over the
    records of the query it is joined to. *)
Fixpoint execute `{Env} (q : BaseRestApiQuery) : Generator :=
  match q with
  | RestApiQuerySeed seed_record => gen_of_list seed_record
  | RestApiQuery inner url params json_path field_names f s o =>
      for_each (execute inner)
               (join_step (mkStep url params json_path field_names f s o))
  end.

End RestApiExecution.

Export RestApiExecution.

(** ** The interfaces of the package

    [databuilder.extractor.base_extractor.Extractor] and
    [databuilder.transformer.base_transformer.Transformer]: an extractor
    hands out one value per call and may change itself; a transformer
    maps a record. *)

Class Extractor (E : Type) : Type := {
  Extractor_extract : E -> M (pyval * E)
}.

Class Transformer (T : Type) : Type := {
  Transformer_transform : T -> pyval -> M pyval
}.

(** ** The REST extractor

    [RestAPIExtractor] of
    [databuilder.extractor.restapi.rest_api_extractor] is not among the
    sources.  The spec: the "generic paginating HTTP extractor" that
    "executes the chained query, handles auth and iteration, yields one
    flattened record at a time", is "seeded with the chain and a constant
    field injection", and answers with "a null/empty result" when no
    record remains. *)

Module RestApiExtractor.

Record RestAPIExtractor : Type := mkRestAPIExtractor {
  _restapi_query : ConfigValue;
  _iterator : option Generator;
  _static_dict : ConfigValue
}.

(** Modelled from the spec: [RestAPIExtractor.init], which is missing:
    the query and the static record are read from the configuration;
    nothing is executed ("execution is deferred to the extraction
    driver"). *)
Definition init `{Databuilder} (conf : ConfigTree) : M RestAPIExtractor :=
  restapi_query <- lift (get conf REST_API_QUERY) ;;
  ret {| _restapi_query := restapi_query;
         _iterator := None;
         _static_dict := get_default conf STATIC_RECORD_DICT (CTree ∅) |}.

(** The value a leaf of the static record puts into a record. *)
Fixpoint config_json (v : ConfigValue) : option json :=
  match v with
  | CStr s => Some (JStr s)
  | CQuery _ => None
  | CTree t => Some (JObj (map_to_list (omap config_json t)))
  end.

(** Modelled from the spec: the "constant field injection" of
    [RestAPIExtractor.extract], which is missing: the record is updated
    with the static record when that is not empty.  Only a tree can
    update a dictionary; an entry that is no string and no tree is left
    out. *)
Definition update_static (record : gmap string json) (static_dict : ConfigValue)
  : Outcome (gmap string json) :=
  match static_dict with
  | CTree t =>
      if Nat.eqb (size t) 0 then Return record
      else Return (omap config_json t ∪ record)
  | CStr s =>
      if String.eqb s "" then Return record
      else Raise (ValueError "dictionary update sequence element")
  | CQuery _ => Raise (TypeError "object is not iterable")
  end.

(** Modelled from the spec: [RestAPIExtractor.extract], which is
    missing: the generator of the query is created by the first call and
    advanced by every call; at its end the answer is [None]. *)
Definition extract `{Env} (self : RestAPIExtractor) : M (pyval * RestAPIExtractor) :=
  iterator <-
    match _iterator self with
    | Some g => ret g
    | None =>
        match _restapi_query self with
        | CQuery q => ret (execute q)
        | _ => raise (AttributeError "execute")
        end
    end ;;
  step <- next iterator ;;
  let self' := {| _restapi_query := _restapi_query self;
                  _iterator := Some (snd step);
                  _static_dict := _static_dict self |} in
  match fst step with
  | None => ret (PNone, self')
  | Some record =>
      record <- lift (update_static record (_static_dict self)) ;;
      ret (PDict record, self')
  end.

End RestApiExtractor.

#[export] Instance RestAPIExtractor_Extractor `{Env}
  : Extractor RestApiExtractor.RestAPIExtractor :=
  {| Extractor_extract := RestApiExtractor.extract |}.

(** ** The transformers

    [TimestampStringToEpoch], [DictToModel] and [ChainedTransformer] of
    [databuilder.transformer] are not among the sources.  The spec: the
    timestamp normalizer "converts one named
    ISO-8601 field in the record to an epoch integer"; the mapper "converts
    the resulting mapping into a strongly-typed execution record",
    "constructed from the normalized record's fields"; the chain passes
    "the record through the transform chain in order". *)

Module Transformers.

Definition digit (c : ascii) : option Z :=
  let n := nat_of_ascii c in
  if (48 <=? n)%nat && (n <=? 57)%nat then Some (Z.of_nat (n - 48)) else None.

(** Exactly [k] decimal digits. *)
Fixpoint digits (k : nat) (s : string) (acc : Z) : option (Z * string) :=
  match k with
  | O => Some (acc, s)
  | S k' =>
      match s with
      | String c rest =>
          match digit c with
          | Some d => digits k' rest (10 * acc + d)
          | None => None
          end
      | EmptyString => None
      end
  end.

Definition expect (c : ascii) (s : string) : option string :=
  match s with
  | String c' rest => if Ascii.eqb c c' then Some rest else None
  | EmptyString => None
  end.

(** An optional fraction of a second, one to six digits after a dot. *)
Fixpoint fraction_digits (fuel : nat) (s : string) : string :=
  match fuel, s with
  | S fuel', String c rest =>
      match digit c with
      | Some _ => fraction_digits fuel' rest
      | None => s
      end
  | _, _ => s
  end.

Definition skip_fraction (s : string) : option string :=
  match s with
  | String "." (String c rest) =>
      match digit c with
      | Some _ => Some (fraction_digits 5 rest)
      | None => None
      end
  | _ => Some s
  end.

Definition is_leap (y : Z) : bool :=
  ((y mod 4 =? 0) && negb (y mod 100 =? 0)) || (y mod 400 =? 0).

Definition days_in_month (y m : Z) : Z :=
  if m =? 2 then (if is_leap y then 29 else 28)
  else if (m =? 4) || (m =? 6) || (m =? 9) || (m =? 11) then 30
  else 31.

(** Days from 1970-01-01 to the given date of the proleptic Gregorian
    calendar. *)
Definition days_from_civil (y m d : Z) : Z :=
  let y' := if m <=? 2 then y - 1 else y in
  let era := y' / 400 in
  let yoe := y' - era * 400 in
  let mp := (m + 9) mod 12 in
  let doy := (153 * mp + 2) / 5 + d - 1 in
  let doe := yoe * 365 + yoe / 4 - yoe / 100 + doy in
  era * 146097 + doe - 719468.

(** Modelled from the spec: the conversion of
    [TimestampStringToEpoch.transform], which is missing, from an
    "ISO-8601 field" to "an epoch integer": the seconds from
    1970-01-01T00:00:00 to a UTC timestamp written as
    [YYYY-MM-DDTHH:MM:SS], an optional fraction, and [Z]. *)
Definition parse_iso8601 (s : string) : option Z :=
  '(y, s) ← digits 4 s 0;
  s ← expect "-" s;
  '(m, s) ← digits 2 s 0;
  s ← expect "-" s;
  '(d, s) ← digits 2 s 0;
  s ← expect "T" s;
  '(hh, s) ← digits 2 s 0;
  s ← expect ":" s;
  '(mm, s) ← digits 2 s 0;
  s ← expect ":" s;
  '(ss, s) ← digits 2 s 0;
  s ← skip_fraction s;
  s ← expect "Z" s;
  if String.eqb s ""
     && (1 <=? y) && (1 <=? m) && (m <=? 12) && (1 <=? d) && (d <=? days_in_month y m)
     && (hh <? 24) && (mm <? 60) && (ss <? 60)
  then Some (days_from_civil y m d * 86400 + hh * 3600 + mm * 60 + ss)
  else None.

Record TimestampStringToEpoch : Type := mkTimestampStringToEpoch {
  _field_name : string
}.

(** Modelled from the spec: [TimestampStringToEpoch.init], which is
    missing: the transformer is "configured to target" the field its
    configuration names. *)
Definition TimestampStringToEpoch_init `{Databuilder} (conf : ConfigTree)
  : M TimestampStringToEpoch :=
  field_name <- lift (get_string conf FIELD_NAME) ;;
  ret {| _field_name := field_name |}.

(** Modelled from the spec: [TimestampStringToEpoch.transform], which
    is missing.  A record without the field, or with nothing in it, is
    returned as it is; otherwise the field is replaced by the epoch. *)
Definition TimestampStringToEpoch_transform (self : TimestampStringToEpoch) (record : pyval)
  : M pyval :=
  match record with
  | PDict d =>
      match d !! _field_name self with
      | None => ret record
      | Some v =>
          if negb (json_truthy v) then ret record
          else
            match v with
            | JStr timestamp_str =>
                match parse_iso8601 timestamp_str with
                | Some epoch => ret (PDict (<[_field_name self := JNum epoch]> d))
                | None => raise (ValueError timestamp_str)
                end
            | _ => raise (TypeError "strptime() argument 1 must be str")
            end
      end
  | _ => raise (AttributeError "get")
  end.

Record DictToModel : Type := mkDictToModel {
  _model_class : string
}.

(** Modelled from the spec: [DictToModel.init], which is missing: the
    model class is the one the configuration names.  The class is kept by
    its name; looking the name up, which fails for a name that names no
    class, is left out, and no property below says that [init] returns
    for every name. *)
Definition DictToModel_init `{Databuilder} (conf : ConfigTree) : M DictToModel :=
  model_class <- lift (get_string conf MODEL_CLASS) ;;
  ret {| _model_class := model_class |}.

(** Modelled from the spec: [DictToModel.transform], which is missing:
    the model is "constructed from the normalized record's fields", which
    are the keyword arguments of the call of the model class. *)
Definition DictToModel_transform (self : DictToModel) (record : pyval) : M pyval :=
  match record with
  | PDict d => ret (PModel (_model_class self) d)
  | _ => raise (TypeError "argument after ** must be a mapping")
  end.

(** The objects a list of transformers holds here. *)
Inductive AnyTransformer : Type :=
| OfTimestampStringToEpoch (t : TimestampStringToEpoch)
| OfDictToModel (t : DictToModel).

Definition AnyTransformer_transform (t : AnyTransformer) (record : pyval) : M pyval :=
  match t with
  | OfTimestampStringToEpoch t => TimestampStringToEpoch_transform t record
  | OfDictToModel t => DictToModel_transform t record
  end.

Record ChainedTransformer : Type := mkChainedTransformer {
  transformers : list AnyTransformer
}.

(** Modelled from the spec: [ChainedTransformer.transform], which is
    missing: the record is passed "through the transform chain in
    order"; a record that a transformer filters out (a false value) ends
    the chain. *)
Fixpoint chain (ts : list AnyTransformer) (record : pyval) : M pyval :=
  match ts with
  | [] => ret record
  | t :: rest =>
      record <- AnyTransformer_transform t record ;;
      if negb (truthy record) then ret PNone else chain rest record
  end.

Definition ChainedTransformer_transform (self : ChainedTransformer) (record : pyval) : M pyval :=
  chain (transformers self) record.

End Transformers.

Export Transformers.

#[export] Instance ChainedTransformer_Transformer : Transformer ChainedTransformer :=
  {| Transformer_transform := ChainedTransformer_transform |}.

(** ** Scoped configuration *)

(** Modelled from the spec: [Scoped.get_scoped_conf] of the package's
    [__init__], which is missing: "each sub-component receives its own
    scoped configuration view layered over defaults".  The view is the
    subtree under the scope, and is empty when there is none. *)

Definition get_scoped_conf (conf : ConfigTree) (scope : string) : ConfigValue :=
  if String.eqb scope "" then CTree ∅ else get_default conf scope (CTree ∅).

(** ** The extractor *)

(* CONFIG KEYS *)
Definition ORGANIZATION : string := "organization".
Definition MODE_ACCESS_TOKEN : string := "mode_user_token".
Definition MODE_PASSWORD_TOKEN : string := "mode_password_token".

(** The attributes [init] sets.  The class of [self._extractor] and of
    [self._transformer] is fixed by [init]; [extract] only uses their
    interfaces. *)
Record ModeDashboardExecutionsExtractor (E T : Type) : Type :=
  mkModeDashboardExecutionsExtractor {
    _conf : ConfigTree;
    _extractor : E;
    _transformer : T
  }.
Arguments mkModeDashboardExecutionsExtractor {E T} _ _ _.
Arguments _conf {E T} _.
Arguments _extractor {E T} _.
Arguments _transformer {E T} _.

Definition spaces_url : string :=
  "https://app.mode.com/api/{organization}/spaces?filter=all".
Definition reports_url : string :=
  "https://app.mode.com/api/{organization}/spaces/{dashboard_group_id}/reports".
Definition run_url : string :=
  "https://app.mode.com{last_run_resource_path}".

(** [_build_restapi_query], with [conf] for [self._conf].  A keyword
    argument the call leaves out takes its default. *)
Definition _build_restapi_query `{Databuilder} (conf : ConfigTree)
  : Outcome BaseRestApiQuery :=
  (* Seed query record for next query api to join with *)
  organization <~ get_string conf ORGANIZATION ;;
  let seed_record := [ ({[ "organization" := JStr organization ]} : gmap string json) ] in
  let seed_query := RestApiQuerySeed seed_record in
  (* Spaces *)
  let url := spaces_url in
  user_token <~ get_string conf MODE_ACCESS_TOKEN ;;
  password_token <~ get_string conf MODE_PASSWORD_TOKEN ;;
  let params : gmap string HTTPBasicAuth :=
    {[ "auth" := mkHTTPBasicAuth user_token password_token ]} in
  let json_path := "_embedded.spaces[*].[token]" in
  let field_names := ["dashboard_group_id"] in
  let spaces_query :=
    RestApiQuery seed_query url params json_path field_names
                 default_fail_no_result default_skip_no_result
                 default_json_path_contains_or in
  (* Reports *)
  let url := reports_url in
  let json_path :=
    "(_embedded.reports[*].token) | (_embedded.reports[*]._links.last_run.href)" in
  let field_names := ["dashboard_id"; "last_run_resource_path"] in
  let last_run_resource_path_query :=
    RestApiQuery spaces_query url params json_path field_names
                 default_fail_no_result true true in
  let url := run_url in
  let json_path := "[state,completed_at]" in
  let field_names := ["execution_state"; "execution_timestamp"] in
  let last_run_state_query :=
    RestApiQuery last_run_resource_path_query url params json_path field_names
                 default_fail_no_result true default_json_path_contains_or in
  Return last_run_state_query.

Definition DASHBOARD_EXECUTION : string :=
  "databuilder.models.dashboard.dashboard_execution.DashboardExecution".

(** [init] *)
Definition init `{Databuilder} (conf : ConfigTree)
  : M (ModeDashboardExecutionsExtractor RestApiExtractor.RestAPIExtractor ChainedTransformer) :=
  restapi_query <- lift (_build_restapi_query conf) ;;
  rest_api_extractor_conf <-
    lift (with_fallback
            (get_scoped_conf conf rest_api_extractor_scope)
            (from_dict [ (REST_API_QUERY, CQuery restapi_query);
                         (STATIC_RECORD_DICT, CTree (from_dict [("product", CStr "mode")])) ])) ;;
  extractor <- RestApiExtractor.init rest_api_extractor_conf ;;
  (* Payload from RestApiQuery has timestamp which is ISO8601. *)
  let transformers : list AnyTransformer := [] in
  timestamp_conf <-
    lift (with_fallback
            (get_scoped_conf conf timestamp_string_to_epoch_scope)
            (from_dict [ (FIELD_NAME, CStr "execution_timestamp") ])) ;;
  timestamp_str_to_epoch_transformer <- TimestampStringToEpoch_init timestamp_conf ;;
  let transformers :=
    (transformers ++ [OfTimestampStringToEpoch timestamp_str_to_epoch_transformer])%list in
  dict_to_model_conf <-
    lift (with_fallback
            (get_scoped_conf conf dict_to_model_scope)
            (from_dict [ (MODEL_CLASS, CStr DASHBOARD_EXECUTION) ])) ;;
  dict_to_model_transformer <- DictToModel_init dict_to_model_conf ;;
  let transformers := (transformers ++ [OfDictToModel dict_to_model_transformer])%list in
  ret {| _conf := conf;
         _extractor := extractor;
         _transformer := {| transformers := transformers |} |}.

(** [extract] *)
Definition extract {E T : Type} `{Extractor E} `{Transformer T}
    (self : ModeDashboardExecutionsExtractor E T)
  : M (pyval * ModeDashboardExecutionsExtractor E T) :=
  step <- Extractor_extract (_extractor self) ;;
  let record := fst step in
  let self := {| _conf := _conf self;
                 _extractor := snd step;
                 _transformer := _transformer self |} in
  if negb (truthy record) then ret (PNone, self)
  else
    result <- (emit (EvTransform record) ;;; Transformer_transform (_transformer self) record) ;;
    ret (result, self).

(** [get_scope] *)
Definition get_scope : string := "extractor.mode_dashboard_execution".

(** [extract] called [n] times in a row: the values handed out, in
    order, and the extractor left behind.  An exception ends the run. *)
Fixpoint extract_n {E T : Type} `{Extractor E} `{Transformer T}
    (n : nat) (self : ModeDashboardExecutionsExtractor E T)
  : M (list pyval * ModeDashboardExecutionsExtractor E T) :=
  match n with
  | O => ret ([], self)
  | S n' =>
      first <- extract self ;;
      others <- extract_n n' (snd first) ;;
      ret (fst first :: fst others, snd others)
  end.

(** An extractor that hands out the values of a list, then [None]. *)
#[export] Instance Scripted_Extractor : Extractor (list pyval) :=
  {| Extractor_extract script :=
       match script with
       | [] => ret (PNone, [])
       | v :: rest => ret (v, rest)
       end |}.

(** ** An instance: the names of the package, a JSON path engine, a server

    The properties below hold for every [Databuilder] and every [Env].
    The instances here make them concrete: the names and defaults the
    package declares; an evaluator for the three JSON paths of the
    extractor; servers that answer like the API of Mode for an
    organization with one space. *)

Module Instances.

#[refine] Definition databuilder : Databuilder :=
  {| REST_API_QUERY := "restapi_query";
     STATIC_RECORD_DICT := "static_record_dict";
     MODEL_CLASS := "model_class";
     FIELD_NAME := "field_name";
     rest_api_extractor_scope := "extractor.restapi";
     timestamp_string_to_epoch_scope := "transformer.timestamp_str_to_epoch";
     dict_to_model_scope := "transformer.dict_to_model";
     default_fail_no_result := false;
     default_skip_no_result := false;
     default_json_path_contains_or := false |}.
Proof.
  - repeat constructor.
  - discriminate.
Defined.

(** The expressions of [jsonpath_rw] the extractor uses. *)
Inductive JsonPath : Type :=
| Fields (names : list string)
| Slice
| Child (first second : JsonPath)
| Union (first second : JsonPath).

Fixpoint member (name : string) (members : list (string * json)) : option json :=
  match members with
  | [] => None
  | (k, v) :: rest => if String.eqb k name then Some v else member name rest
  end.

Fixpoint find (p : JsonPath) (doc : json) : list json :=
  match p with
  | Fields names =>
      match doc with
      | JObj members => omap (fun name => member name members) names
      | _ => []
      end
  | Slice =>
      match doc with
      | JArr items => items
      | JNull => []
      | _ => [doc]
      end
  | Child first second => flat_map (find second) (find first doc)
  | Union first second => (find first doc ++ find second doc)%list
  end.

Definition field (name : string) : JsonPath := Fields [name].

Definition spaces_path : JsonPath :=
  Child (Child (Child (field "_embedded") (field "spaces")) Slice) (field "token").

Definition reports_path : JsonPath :=
  Union (Child (Child (Child (field "_embedded") (field "reports")) Slice) (field "token"))
        (Child (Child (Child (Child (Child (field "_embedded") (field "reports")) Slice)
                             (field "_links")) (field "last_run")) (field "href")).

Definition run_path : JsonPath := Fields ["state"; "completed_at"].

Definition parse (json_path : string) : option JsonPath :=
  if String.eqb json_path "_embedded.spaces[*].[token]" then Some spaces_path
  else if String.eqb json_path
            "(_embedded.reports[*].token) | (_embedded.reports[*]._links.last_run.href)"
       then Some reports_path
  else if String.eqb json_path "[state,completed_at]" then Some run_path
  else None.

Definition mode_jsonpath_find (json_path : string) (doc : json) : list json :=
  match parse json_path with
  | Some p => find p doc
  | None => []
  end.

Definition spaces_document (tokens : list string) : json :=
  JObj [("_embedded", JObj [("spaces", JArr (map (fun t => JObj [("token", JStr t)]) tokens))])].

Definition report_with_run (token href : string) : json :=
  JObj [("token", JStr token);
        ("_links", JObj [("last_run", JObj [("href", JStr href)])])].

Definition report_without_run (token : string) : json :=
  JObj [("token", JStr token); ("_links", JObj [])].

Definition reports_document (reports : list json) : json :=
  JObj [("_embedded", JObj [("reports", JArr reports)])].

Definition run_document (state completed_at : string) : json :=
  JObj [("state", JStr state); ("completed_at", JStr completed_at)].

(** Organization [acme]: one space [sp1], one report [r1] whose last
    run succeeded at the start of 2021. *)
Definition acme_http_get (url : string) (params : gmap string HTTPBasicAuth) : option json :=
  if String.eqb url "https://app.mode.com/api/acme/spaces?filter=all"
  then Some (spaces_document ["sp1"])
  else if String.eqb url "https://app.mode.com/api/acme/spaces/sp1/reports"
  then Some (reports_document [report_with_run "r1" "/runs/1"])
  else if String.eqb url "https://app.mode.com/runs/1"
  then Some (run_document "succeeded" "2021-01-01T00:00:00Z")
  else None.

Definition acme : Env :=
  {| http_get := acme_http_get; jsonpath_find := mode_jsonpath_find |}.

(** The same organization when report [r1] was never run. *)
Definition acme_never_run_http_get (url : string) (params : gmap string HTTPBasicAuth)
  : option json :=
  if String.eqb url "https://app.mode.com/api/acme/spaces?filter=all"
  then Some (spaces_document ["sp1"])
  else if String.eqb url "https://app.mode.com/api/acme/spaces/sp1/reports"
  then Some (reports_document [report_without_run "r1"])
  else None.

Definition acme_never_run : Env :=
  {| http_get := acme_never_run_http_get; jsonpath_find := mode_jsonpath_find |}.

(** A server with two more organizations.  [idle] has no space.
    [busy] has one space with four reports: [r2] was never run, and the
    last run of [r1] is still pending, so it has no time of completion
    yet. *)
Definition busy_reports : json :=
  reports_document [ report_with_run "r1" "/runs/1";
                     report_without_run "r2";
                     report_with_run "r3" "/runs/3";
                     report_with_run "r4" "/runs/4" ].

Definition pending_run_document : json :=
  JObj [("state", JStr "pending"); ("completed_at", JNull)].

Definition two_organizations_http_get (url : string) (params : gmap string HTTPBasicAuth)
  : option json :=
  if String.eqb url "https://app.mode.com/api/idle/spaces?filter=all"
  then Some (spaces_document [])
  else if String.eqb url "https://app.mode.com/api/busy/spaces?filter=all"
  then Some (spaces_document ["sp1"])
  else if String.eqb url "https://app.mode.com/api/busy/spaces/sp1/reports"
  then Some busy_reports
  else if String.eqb url "https://app.mode.com/runs/1"
  then Some pending_run_document
  else if String.eqb url "https://app.mode.com/runs/3"
  then Some (run_document "succeeded" "2021-01-01T00:00:00Z")
  else if String.eqb url "https://app.mode.com/runs/4"
  then Some (run_document "failed" "2021-01-02T00:00:00Z")
  else None.

Definition two_organizations : Env :=
  {| http_get := two_organizations_http_get; jsonpath_find := mode_jsonpath_find |}.

Definition acme_conf : ConfigTree :=
  {[ "organization" := CStr "acme";
     "mode_user_token" := CStr "user";
     "mode_password_token" := CStr "secret" ]}.

(** The plan, the extractor and the values of that organization: the
    extractor as [init] returns it and as it is once its generator has
    ended, the record the REST extractor hands out, the model made of
    it, and the trace of the first call of [extract]. *)
Definition acme_params : gmap string HTTPBasicAuth :=
  {[ "auth" := mkHTTPBasicAuth "user" "secret" ]}.

Definition acme_query : BaseRestApiQuery :=
  RestApiQuery
    (RestApiQuery
       (RestApiQuery
          (RestApiQuerySeed [ {[ "organization" := JStr "acme" ]} ])
          "https://app.mode.com/api/{organization}/spaces?filter=all" acme_params
          "_embedded.spaces[*].[token]" ["dashboard_group_id"] false false false)
       "https://app.mode.com/api/{organization}/spaces/{dashboard_group_id}/reports" acme_params
       "(_embedded.reports[*].token) | (_embedded.reports[*]._links.last_run.href)"
       ["dashboard_id"; "last_run_resource_path"] false true true)
    "https://app.mode.com{last_run_resource_path}" acme_params
    "[state,completed_at]" ["execution_state"; "execution_timestamp"] false true false.

Definition acme_transformer : ChainedTransformer :=
  {| transformers :=
       [ OfTimestampStringToEpoch {| _field_name := "execution_timestamp" |};
         OfDictToModel {| _model_class := DASHBOARD_EXECUTION |} ] |}.

Definition acme_extractor (iterator : option Generator)
  : ModeDashboardExecutionsExtractor RestApiExtractor.RestAPIExtractor ChainedTransformer :=
  {| _conf := acme_conf;
     _extractor :=
       {| RestApiExtractor._restapi_query := CQuery acme_query;
          RestApiExtractor._iterator := iterator;
          RestApiExtractor._static_dict := CTree {[ "product" := CStr "mode" ]} |};
     _transformer := acme_transformer |}.

Definition acme_initialized := acme_extractor None.
Definition acme_exhausted := acme_extractor (Some GStop).

Definition acme_record : gmap string json :=
  {[ "organization" := JStr "acme";
     "dashboard_group_id" := JStr "sp1";
     "dashboard_id" := JStr "r1";
     "last_run_resource_path" := JStr "/runs/1";
     "execution_state" := JStr "succeeded";
     "execution_timestamp" := JStr "2021-01-01T00:00:00Z";
     "product" := JStr "mode" ]}.

Definition acme_model : pyval :=
  PModel DASHBOARD_EXECUTION (<["execution_timestamp" := JNum 1609459200]> acme_record).

Definition acme_trace : list Event :=
  [ EvHttpGet "https://app.mode.com/api/acme/spaces?filter=all" acme_params;
    EvHttpGet "https://app.mode.com/api/acme/spaces/sp1/reports" acme_params;
    EvHttpGet "https://app.mode.com/runs/1" acme_params;
    EvTransform (PDict acme_record) ].

(** A configuration that names another field for the timestamp
    transformer, and one that names another product for the static
    record of the REST extractor. *)
Definition acme_conf_other_field : ConfigTree :=
  <[ "transformer" :=
       CTree {[ "timestamp_str_to_epoch" := CTree {[ "field_name" := CStr "completed_at" ]} ]} ]>
    acme_conf.

Definition acme_conf_other_product : ConfigTree :=
  <[ "extractor" :=
       CTree {[ "restapi" :=
                  CTree {[ "static_record_dict" := CTree {[ "product" := CStr "looker" ]} ]} ]} ]>
    acme_conf.

(** A configuration that puts an empty string where the static record
    of the REST extractor is expected. *)
Definition acme_conf_no_static : ConfigTree :=
  <[ "extractor" := CTree {[ "restapi" := CTree {[ "static_record_dict" := CStr "" ]} ]} ]>
    acme_conf.


(** An extractor over a scripted source whose first value is an empty
    dictionary. *)
Definition scripted (script : list pyval)
  : ModeDashboardExecutionsExtractor (list pyval) ChainedTransformer :=
  {| _conf := acme_conf; _extractor := script; _transformer := acme_transformer |}.


End Instances.

(** ** Notions the properties are stated with *)

(** The extractors a job can hold: what [init] returned, and what a
    returning call of [extract] leaves behind. *)
Inductive reachable `{Databuilder} `{Env} (conf : ConfigTree)
  : ModeDashboardExecutionsExtractor RestApiExtractor.RestAPIExtractor ChainedTransformer -> Prop :=
| reachable_init tr tr' self :
    init conf tr = (Return self, tr') -> reachable conf self
| reachable_extract self tr v self' tr' :
    reachable conf self ->
    extract self tr = (Return (v, self'), tr') ->
    reachable conf self'.

(** An exhausted source: it answers [None], sends nothing and stays as
    it is. *)
Definition exhausted {E : Type} `{Extractor E} (e : E) : Prop :=
  forall tr, Extractor_extract e tr = (Return (PNone, e), tr).

(** What a configuration puts under the scope of a component. *)
Definition scoped_entry (conf : ConfigTree) (scope key : string) : option ConfigValue :=
  match get_scoped_conf conf scope with
  | CTree view => view !! key
  | _ => None
  end.

(** The configuration leaves the product of the static record alone:
    under the scope of the REST extractor it has no static record, or one
    that is a tree without a [product]. *)
Definition product_left_alone `{Databuilder} (conf : ConfigTree) : Prop :=
  match scoped_entry conf rest_api_extractor_scope STATIC_RECORD_DICT with
  | None => True
  | Some (CTree static) => static !! "product" = None
  | Some _ => False
  end.

(** The requests a generator sends and the records it yields when it
    is run to its end or to the exception it raises. *)
Fixpoint requests (g : Generator) : list (string * gmap string HTTPBasicAuth) :=
  match g with
  | GStop | GRaise _ => []
  | GRequest url params rest => (url, params) :: requests rest
  | GYield _ rest => requests rest
  end.

Fixpoint yields (g : Generator) : list (gmap string json) :=
  match g with
  | GStop | GRaise _ => []
  | GRequest _ _ rest => yields rest
  | GYield r rest => r :: yields rest
  end.

(** The records the extractor has handed to its transformer, in a
    trace. *)
Fixpoint transform_calls (tr : list Event) : list pyval :=
  match tr with
  | [] => []
  | EvTransform record :: rest => record :: transform_calls rest
  | EvHttpGet _ _ :: rest => transform_calls rest
  end.

(** * Properties *)

(** ** The monad *)

Lemma bind_Return {A B} (c : M A) (k : A -> M B) tr a tr1 :
  c tr = (Return a, tr1) -> bind c k tr = k a tr1.
Proof. intros Hc. unfold bind. now rewrite Hc. Qed.

Lemma bind_Raise {A B} (c : M A) (k : A -> M B) tr e tr1 :
  c tr = (Raise e, tr1) -> bind c k tr = (Raise e, tr1).
Proof. intros Hc. unfold bind. now rewrite Hc. Qed.

Lemma bind_inv {A B} (c : M A) (k : A -> M B) tr b tr2 :
  bind c k tr = (Return b, tr2) ->
  exists a tr1, c tr = (Return a, tr1) /\ k a tr1 = (Return b, tr2).
Proof.
  unfold bind. destruct (c tr) as [[a|e] tr1]; intros Hk; [ eauto | discriminate ].
Qed.

Lemma lift_inv {A} (o : Outcome A) tr a tr1 :
  lift o tr = (Return a, tr1) -> o = Return a /\ tr1 = tr.
Proof. unfold lift. intros [= -> ->]. auto. Qed.

Lemma obind_inv {A B} (o : Outcome A) (k : A -> Outcome B) b :
  obind o k = Return b -> exists a, o = Return a /\ k a = Return b.
Proof. destruct o as [a|e]; simpl; intros Hk; [ eauto | discriminate ]. Qed.

(** ** Configuration trees *)

Lemma get_top (conf : ConfigTree) (key : string) :
  split_dots key = [key] ->
  get conf key =
    match conf !! key with
    | Some v => Return v
    | None => Raise (ConfigMissingException key)
    end.
Proof.
  intros Hkey. unfold get. rewrite Hkey. simpl.
  destruct (conf !! key) as [v|]; reflexivity.
Qed.

Lemma get_string_top (conf : ConfigTree) (key : string) :
  split_dots key = [key] ->
  get_string conf key =
    match conf !! key with
    | Some v => Return (config_str v)
    | None => Raise (ConfigMissingException key)
    end.
Proof.
  intros Hkey. unfold get_string. rewrite (get_top _ _ Hkey).
  destruct (conf !! key) as [v|]; reflexivity.
Qed.

Lemma get_default_top (conf : ConfigTree) (key : string) (otherwise : ConfigValue) :
  split_dots key = [key] ->
  get_default conf key otherwise = default otherwise (conf !! key).
Proof.
  intros Hkey. unfold get_default. rewrite Hkey. simpl.
  destruct (conf !! key) as [v|]; reflexivity.
Qed.

(** ** Generators *)

Section Generators.
Context `{Env}.

Lemma requests_gen_app (g1 g2 : Generator) rq :
  rq ∈ requests (gen_app g1 g2) -> rq ∈ requests g1 \/ rq ∈ requests g2.
Proof.
  induction g1 as [ | e | url params rest IH | r rest IH ]; simpl; intros Hin.
  - now right.
  - now apply elem_of_nil in Hin.
  - apply elem_of_cons in Hin as [-> | Hin].
    + left. apply elem_of_cons. now left.
    + destruct (IH Hin) as [Hl | Hr]; [ left; apply elem_of_cons; now right | now right ].
  - auto.
Qed.

Lemma yields_gen_app (g1 g2 : Generator) r :
  r ∈ yields (gen_app g1 g2) -> r ∈ yields g1 \/ r ∈ yields g2.
Proof.
  induction g1 as [ | e | url params rest IH | r' rest IH ]; simpl; intros Hin.
  - now right.
  - now apply elem_of_nil in Hin.
  - auto.
  - apply elem_of_cons in Hin as [-> | Hin].
    + left. apply elem_of_cons. now left.
    + destruct (IH Hin) as [Hl | Hr]; [ left; apply elem_of_cons; now right | now right ].
Qed.

Lemma requests_for_each (g : Generator) (body : gmap string json -> Generator) rq :
  rq ∈ requests (for_each g body) ->
  rq ∈ requests g \/ exists r, r ∈ yields g /\ rq ∈ requests (body r).
Proof.
  induction g as [ | e | url params rest IH | r rest IH ]; simpl; intros Hin.
  - now apply elem_of_nil in Hin.
  - now apply elem_of_nil in Hin.
  - apply elem_of_cons in Hin as [-> | Hin].
    + left. apply elem_of_cons. now left.
    + destruct (IH Hin) as [Hl | (r & Hr & Hb)].
      * left. apply elem_of_cons. now right.
      * right. eauto.
  - apply requests_gen_app in Hin as [Hb | Hin].
    + right. exists r. split; [ apply elem_of_cons; now left | exact Hb ].
    + destruct (IH Hin) as [Hl | (r' & Hr & Hb)].
      * now left.
      * right. exists r'. split; [ apply elem_of_cons; now right | exact Hb ].
Qed.

Lemma yields_for_each (g : Generator) (body : gmap string json -> Generator) r' :
  r' ∈ yields (for_each g body) ->
  exists r, r ∈ yields g /\ r' ∈ yields (body r).
Proof.
  induction g as [ | e | url params rest IH | r rest IH ]; simpl; intros Hin.
  - now apply elem_of_nil in Hin.
  - now apply elem_of_nil in Hin.
  - auto.
  - apply yields_gen_app in Hin as [Hb | Hin].
    + exists r. split; [ apply elem_of_cons; now left | exact Hb ].
    + destruct (IH Hin) as (r0 & Hr & Hb).
      exists r0. split; [ apply elem_of_cons; now right | exact Hb ].
Qed.

Lemma requests_yield_sub_records field_names record_dict sub_records :
  requests (yield_sub_records field_names record_dict sub_records) = [].
Proof.
  revert record_dict.
  induction sub_records as [ | sub rest IH ]; intros record_dict; simpl; [ reflexivity | ].
  destruct (_ || _); simpl; apply IH.
Qed.

(** A step sends one request for a record: the URL of the step with
    the fields of the record put in, under the parameters of the step. *)
Lemma requests_join_step (st : Step) (record_dict : gmap string json) rq :
  rq ∈ requests (join_step st record_dict) ->
  _preprocess_url (step_url st) record_dict = Return (fst rq) /\ snd rq = step_params st.
Proof.
  unfold join_step.
  destruct (_preprocess_url (step_url st) record_dict) as [url|e]; simpl;
    [ | intros Hin; now apply elem_of_nil in Hin ].
  intros Hin. apply elem_of_cons in Hin as [-> | Hin]; [ now split | exfalso ].
  assert (Hsub : forall subs,
             requests match subs with
                      | Raise e => GRaise e
                      | Return subs => yield_sub_records (step_field_names st) record_dict subs
                      end = []).
  { intros [subs|e]; simpl; [ apply requests_yield_sub_records | reflexivity ]. }
  destruct (http_get url (step_params st)) as [response_json|]; simpl in Hin;
    [ | now apply elem_of_nil in Hin ].
  destruct (jsonpath_find (step_json_path st) response_json) as [ | v vs ].
  - destruct (step_fail_no_result st); simpl in Hin; [ now apply elem_of_nil in Hin | ].
    destruct (step_skip_no_result st); simpl in Hin; [ now apply elem_of_nil in Hin | ].
    rewrite Hsub in Hin. now apply elem_of_nil in Hin.
  - rewrite Hsub in Hin. now apply elem_of_nil in Hin.
Qed.

(** Every request of a plan is sent by one of its steps. *)
Lemma requests_execute (q : BaseRestApiQuery) rq :
  rq ∈ requests (execute q) -> exists st, st ∈ steps q /\ snd rq = step_params st.
Proof.
  induction q as [ seed_record | inner IH url params json_path field_names f s o ];
    simpl; intros Hin.
  - exfalso. induction seed_record as [ | r rest IHs ]; simpl in Hin; [ | auto ].
    now apply elem_of_nil in Hin.
  - apply requests_for_each in Hin as [Hin | (r & _ & Hin)].
    + destruct (IH Hin) as (st & Hst & Hp).
      exists st. split; [ apply elem_of_app; now left | exact Hp ].
    + apply requests_join_step in Hin as [_ Hp].
      eexists. split; [ apply elem_of_app; right; apply list_elem_of_singleton; reflexivity | ].
      exact Hp.
Qed.

Lemma assign_lookup_other field_names sub_record (record_dict : gmap string json) (k : string) :
  k ∉ field_names -> assign field_names sub_record record_dict !! k = record_dict !! k.
Proof.
  revert sub_record record_dict.
  induction field_names as [ | name names IH ]; intros sub_record record_dict Hk; simpl.
  - reflexivity.
  - destruct sub_record as [ | v vs ]; [ reflexivity | ].
    apply not_elem_of_cons in Hk as [Hne Hk].
    rewrite IH by exact Hk. now apply lookup_insert_ne.
Qed.

Lemma yields_yield_sub_records_other field_names (record_dict : gmap string json)
    sub_records r' (k : string) :
  r' ∈ yields (yield_sub_records field_names record_dict sub_records) ->
  k ∉ field_names -> r' !! k = record_dict !! k.
Proof.
  revert record_dict.
  induction sub_records as [ | sub rest IH ]; intros record_dict Hin Hk; simpl in Hin.
  - now apply elem_of_nil in Hin.
  - destruct (_ || _).
    + now apply IH.
    + simpl in Hin. apply elem_of_cons in Hin as [-> | Hin].
      * now apply assign_lookup_other.
      * rewrite (IH _ Hin Hk). now apply assign_lookup_other.
Qed.

(** A record a step yields agrees with the record it was joined to on
    every field the step does not extract. *)
Lemma yields_join_step_other (st : Step) (record_dict : gmap string json) r' (k : string) :
  r' ∈ yields (join_step st record_dict) ->
  k ∉ step_field_names st -> r' !! k = record_dict !! k.
Proof.
  unfold join_step. intros Hin Hk.
  destruct (_preprocess_url (step_url st) record_dict) as [url|e]; simpl in Hin;
    [ | now apply elem_of_nil in Hin ].
  destruct (http_get url (step_params st)) as [response_json|]; simpl in Hin;
    [ | now apply elem_of_nil in Hin ].
  assert (Hsub : forall subs,
             r' ∈ yields match subs with
                         | Raise e => GRaise e
                         | Return subs => yield_sub_records (step_field_names st) record_dict subs
                         end -> r' !! k = record_dict !! k).
  { intros [subs|e] Hs; simpl in Hs;
      [ eapply yields_yield_sub_records_other; eassumption | now apply elem_of_nil in Hs ]. }
  destruct (jsonpath_find (step_json_path st) response_json) as [ | v vs ].
  - destruct (step_fail_no_result st); simpl in Hin; [ now apply elem_of_nil in Hin | ].
    destruct (step_skip_no_result st); simpl in Hin; [ now apply elem_of_nil in Hin | ].
    apply elem_of_cons in Hin as [-> | Hin]; [ reflexivity | exact (Hsub _ Hin) ].
  - exact (Hsub _ Hin).
Qed.

Lemma every_nil fuel step : every fuel step [] = [].
Proof. destruct fuel; reflexivity. Qed.

Lemma chunks_single (l : list json) : chunks (length l) 1 l = map (fun x => [x]) l.
Proof. induction l as [ | x l IH ]; simpl; [ reflexivity | ]. now rewrite drop_0, IH. Qed.

Lemma stride_single (whole l : list json) (k : nat) :
  drop k whole = l ->
  map (fun i => every (length whole) (length whole) (drop i whole)) (seq k (length l))
  = map (fun x => [x]) l.
Proof.
  revert k. induction l as [ | x l IH ]; intros k Hdrop; simpl; [ reflexivity | ].
  assert (Hlen : (length whole = k + S (length l))%nat).
  { rewrite <- (take_drop k whole) at 1. rewrite length_app, Hdrop. simpl.
    rewrite length_take. apply (f_equal length) in Hdrop. rewrite length_drop in Hdrop.
    simpl in Hdrop. lia. }
  f_equal.
  - rewrite Hdrop. destruct (length whole) as [ | n ] eqn:Hn; [ lia | ]. simpl.
    rewrite drop_ge by lia. now rewrite every_nil.
  - apply IH. rewrite <- (Nat.add_1_r k), <- drop_drop, Hdrop. reflexivity.
Qed.

(** With one field name every value the path finds is a sub-record of
    its own, whatever the form of the path. *)
Lemma compute_sub_records_single (result_list : list json) (name : string) (o : bool) :
  _compute_sub_records result_list [name] o = Return (map (fun x => [x]) result_list).
Proof.
  unfold _compute_sub_records. change (length [name]) with 1%nat.
  destruct o; cbn [negb]; f_equal.
  - rewrite Nat.div_1_r. now apply (stride_single result_list result_list 0).
  - apply chunks_single.
Qed.

Lemma yields_single_field (name : string) (values : list json) (record_dict : gmap string json) :
  yield_sub_records [name] record_dict (map (fun x => [x]) values)
  = gen_of_list (map (fun v => <[name := v]> record_dict) values).
Proof.
  revert record_dict.
  induction values as [ | v values IH ]; intros record_dict; simpl; [ reflexivity | ].
  f_equal. rewrite IH. f_equal. apply map_ext. intros w. apply insert_insert_eq.
Qed.

Lemma yields_gen_of_list (records : list (gmap string json)) :
  yields (gen_of_list records) = records.
Proof. induction records as [ | r rest IH ]; simpl; [ reflexivity | now rewrite IH ]. Qed.

(** A step with one field name yields one record per value its path
    finds in the response, with the field bound to that value. *)
Lemma join_step_one_record_per_match (st : Step) (record_dict : gmap string json)
    (name url : string) (response_json : json) :
  step_field_names st = [name] ->
  _preprocess_url (step_url st) record_dict = Return url ->
  http_get url (step_params st) = Some response_json ->
  jsonpath_find (step_json_path st) response_json <> [] ->
  join_step st record_dict =
    GRequest url (step_params st)
      (gen_of_list (map (fun v => <[name := v]> record_dict)
                        (jsonpath_find (step_json_path st) response_json))).
Proof.
  intros Hname Hurl Hget Hfound. unfold join_step.
  rewrite Hurl, Hget, Hname, compute_sub_records_single, yields_single_field.
  destruct (jsonpath_find (step_json_path st) response_json); [ congruence | reflexivity ].
Qed.

(** Executing a plan is running its steps, in order, over the seed. *)
Lemma execute_steps (q : BaseRestApiQuery) :
  execute q = foldl (fun g st => for_each g (join_step st)) (gen_of_list (seed_of q)) (steps q).
Proof.
  induction q as [ seed_record | inner IH url params json_path field_names f s o ]; simpl.
  - reflexivity.
  - rewrite foldl_app. simpl. now rewrite IH.
Qed.

Lemma format_from_placeholders (template : string) (field : option string)
    (r1 r2 : gmap string json) :
  (forall k, k ∈ placeholders_from template field -> r1 !! k = r2 !! k) ->
  format_from template field r1 = format_from template field r2.
Proof.
  revert field.
  induction template as [ | c rest IH ]; intros field Hagree; simpl.
  - reflexivity.
  - destruct field as [name|]; simpl in Hagree.
    + destruct (Ascii.eqb c "}").
      * rewrite (Hagree name) by (apply elem_of_cons; now left).
        destruct (r2 !! name) as [v|]; [ | reflexivity ].
        rewrite (IH None); [ reflexivity | ].
        intros k Hk. apply Hagree. apply elem_of_cons. now right.
      * now apply IH.
    + destruct (Ascii.eqb c "{"); [ now apply IH | ].
      destruct (Ascii.eqb c "}"); [ reflexivity | ].
      now rewrite (IH None).
Qed.

(** The URL a step calls for a record depends on the record only
    through the fields its template names. *)
Lemma preprocess_url_placeholders (template : string) (r1 r2 : gmap string json) :
  (forall k, k ∈ placeholders template -> r1 !! k = r2 !! k) ->
  _preprocess_url template r1 = _preprocess_url template r2.
Proof. apply format_from_placeholders. Qed.

End Generators.

(** ** The query plan *)

Section Plan.
Context `{Databuilder} `{Env}.

(** The plan [_build_restapi_query] returns for the three strings it
    reads from the configuration. *)
Lemma build_restapi_query_cases (conf : ConfigTree) :
  match conf !! ORGANIZATION, conf !! MODE_ACCESS_TOKEN, conf !! MODE_PASSWORD_TOKEN with
  | None, _, _ =>
      _build_restapi_query conf = Raise (ConfigMissingException ORGANIZATION)
  | Some _, None, _ =>
      _build_restapi_query conf = Raise (ConfigMissingException MODE_ACCESS_TOKEN)
  | Some _, Some _, None =>
      _build_restapi_query conf = Raise (ConfigMissingException MODE_PASSWORD_TOKEN)
  | Some organization, Some user_token, Some password_token =>
      exists q,
        _build_restapi_query conf = Return q /\
        seed_of q = [ {[ "organization" := JStr (config_str organization) ]} ] /\
        steps q =
          let params : gmap string HTTPBasicAuth :=
            {[ "auth" := mkHTTPBasicAuth (config_str user_token) (config_str password_token) ]} in
          [ mkStep spaces_url params "_embedded.spaces[*].[token]" ["dashboard_group_id"]
                   default_fail_no_result default_skip_no_result default_json_path_contains_or;
            mkStep reports_url params
                   "(_embedded.reports[*].token) | (_embedded.reports[*]._links.last_run.href)"
                   ["dashboard_id"; "last_run_resource_path"]
                   default_fail_no_result true true;
            mkStep run_url params "[state,completed_at]"
                   ["execution_state"; "execution_timestamp"]
                   default_fail_no_result true default_json_path_contains_or ]
  end.
Proof.
  unfold _build_restapi_query.
  rewrite !get_string_top by reflexivity.
  destruct (conf !! ORGANIZATION) as [organization|]; [ | reflexivity ].
  destruct (conf !! MODE_ACCESS_TOKEN) as [user_token|]; [ | reflexivity ].
  destruct (conf !! MODE_PASSWORD_TOKEN) as [password_token|]; [ | reflexivity ].
  simpl. eexists. split; [ reflexivity | ]. split; reflexivity.
Qed.

Lemma init_raises_with_query (conf : ConfigTree) (tr : list Event) (e : Exception) :
  _build_restapi_query conf = Raise e -> init conf tr = (Raise e, tr).
Proof.
  intros Hq. unfold init. apply bind_Raise. unfold lift. now rewrite Hq.
Qed.

(** C5. When the organization, the user token or the password token is
    absent from the configuration, building the query raises the
    exception of a missing key, and so does [init], before it has built
    an extractor and without anything sent; no extractor exists on which
    [extract] could be called. *)
Theorem init_fails_without_required_key (conf : ConfigTree) (tr : list Event) (key : string) :
  key ∈ [ORGANIZATION; MODE_ACCESS_TOKEN; MODE_PASSWORD_TOKEN] ->
  conf !! key = None ->
  exists missing,
    missing ∈ [ORGANIZATION; MODE_ACCESS_TOKEN; MODE_PASSWORD_TOKEN] /\
    conf !! missing = None /\
    _build_restapi_query conf = Raise (ConfigMissingException missing) /\
    init conf tr = (Raise (ConfigMissingException missing), tr).
Proof.
  intros Hkey Hnone.
  pose proof (build_restapi_query_cases conf) as Hcases.
  destruct (conf !! ORGANIZATION) as [organization|] eqn:Horg.
  - destruct (conf !! MODE_ACCESS_TOKEN) as [user_token|] eqn:Huser.
    + destruct (conf !! MODE_PASSWORD_TOKEN) as [password_token|] eqn:Hpw.
      * exfalso.
        repeat (apply elem_of_cons in Hkey as [-> | Hkey]; [ congruence | ]).
        now apply elem_of_nil in Hkey.
      * exists MODE_PASSWORD_TOKEN.
        split; [ repeat constructor | ].
        auto using init_raises_with_query.
    + exists MODE_ACCESS_TOKEN.
      split; [ repeat constructor | ].
      auto using init_raises_with_query.
  - exists ORGANIZATION.
    split; [ repeat constructor | ].
    auto using init_raises_with_query.
Qed.

(** C8. The plan has three steps, and the parameters of each of them
    are the one dictionary that holds the basic-auth pair built from the
    configured user token and password token; every request an execution
    of the plan sends carries that pair. *)
Theorem one_credential_for_all_steps (conf : ConfigTree) (q : BaseRestApiQuery) :
  _build_restapi_query conf = Return q ->
  exists user_token password_token,
    get_string conf MODE_ACCESS_TOKEN = Return user_token /\
    get_string conf MODE_PASSWORD_TOKEN = Return password_token /\
    length (steps q) = 3%nat /\
    Forall (fun st => step_params st = {[ "auth" := mkHTTPBasicAuth user_token password_token ]})
           (steps q) /\
    Forall (fun rq => snd rq = {[ "auth" := mkHTTPBasicAuth user_token password_token ]})
           (requests (execute q)).
Proof.
  intros Hq.
  pose proof (build_restapi_query_cases conf) as Hcases.
  rewrite !get_string_top by reflexivity.
  destruct (conf !! ORGANIZATION) as [organization|]; [ | congruence ].
  destruct (conf !! MODE_ACCESS_TOKEN) as [user_token|]; [ | congruence ].
  destruct (conf !! MODE_PASSWORD_TOKEN) as [password_token|]; [ | congruence ].
  destruct Hcases as (q' & Hq' & _ & Hsteps).
  assert (q' = q) as -> by congruence.
  exists (config_str user_token), (config_str password_token).
  assert (Hall : Forall (fun st => step_params st =
                           {[ "auth" := mkHTTPBasicAuth (config_str user_token)
                                                        (config_str password_token) ]})
                        (steps q)).
  { rewrite Hsteps. simpl. repeat constructor. }
  repeat split; [ now rewrite Hsteps | exact Hall | ].
  apply Forall_forall. intros rq Hrq.
  apply requests_execute in Hrq as (st & Hst & ->).
  rewrite Forall_forall in Hall. now apply Hall.
Qed.

(** C2. The plan [_build_restapi_query] returns is a seed that holds
    the configured organization and three GET steps run one over the
    other.  Step 1 calls the spaces URL, whose only field is the
    organization, and yields one record per value its path finds, bound
    to [dashboard_group_id].  Step 2 calls the reports URL, whose fields
    are the organization and [dashboard_group_id], and extracts
    [dashboard_id] and [last_run_resource_path].  Step 3 calls the host
    followed by [last_run_resource_path] and extracts [execution_state]
    and [execution_timestamp].  The URL a step calls is its template
    filled from the record it is joined to and depends on that record
    only through the fields the template names; a record a step yields
    keeps every field the step does not extract. *)
Theorem query_plan_is_three_joined_steps (conf : ConfigTree) (q : BaseRestApiQuery) :
  _build_restapi_query conf = Return q ->
  exists organization s1 s2 s3,
    get_string conf ORGANIZATION = Return organization /\
    seed_of q = [ {[ "organization" := JStr organization ]} ] /\
    steps q = [s1; s2; s3] /\
    execute q =
      for_each (for_each (for_each (gen_of_list (seed_of q)) (join_step s1)) (join_step s2))
               (join_step s3) /\
    (step_url s1 = "https://app.mode.com/api" +:+ "/{organization}/spaces?filter=all" /\
     placeholders (step_url s1) = ["organization"] /\
     step_json_path s1 = "_embedded.spaces[*].[token]" /\
     step_field_names s1 = ["dashboard_group_id"]) /\
    (step_url s2 =
       "https://app.mode.com/api" +:+ "/{organization}/spaces/{dashboard_group_id}/reports" /\
     placeholders (step_url s2) = ["organization"; "dashboard_group_id"] /\
     step_json_path s2 =
       "(_embedded.reports[*].token) | (_embedded.reports[*]._links.last_run.href)" /\
     step_field_names s2 = ["dashboard_id"; "last_run_resource_path"]) /\
    (step_url s3 = "https://app.mode.com" +:+ "{last_run_resource_path}" /\
     placeholders (step_url s3) = ["last_run_resource_path"] /\
     step_json_path s3 = "[state,completed_at]" /\
     step_field_names s3 = ["execution_state"; "execution_timestamp"]) /\
    (forall st r rq,
        rq ∈ requests (join_step st r) -> _preprocess_url (step_url st) r = Return (fst rq)) /\
    (forall st r1 r2,
        (forall k, k ∈ placeholders (step_url st) -> r1 !! k = r2 !! k) ->
        _preprocess_url (step_url st) r1 = _preprocess_url (step_url st) r2) /\
    (forall st r r' k,
        r' ∈ yields (join_step st r) -> k ∉ step_field_names st -> r' !! k = r !! k) /\
    (forall r url response_json,
        _preprocess_url (step_url s1) r = Return url ->
        http_get url (step_params s1) = Some response_json ->
        jsonpath_find (step_json_path s1) response_json <> [] ->
        yields (join_step s1 r) =
          map (fun token => <["dashboard_group_id" := token]> r)
              (jsonpath_find (step_json_path s1) response_json)).
Proof.
  intros Hq.
  pose proof (build_restapi_query_cases conf) as Hcases.
  rewrite get_string_top by reflexivity.
  destruct (conf !! ORGANIZATION) as [organization|]; [ | congruence ].
  destruct (conf !! MODE_ACCESS_TOKEN) as [user_token|]; [ | congruence ].
  destruct (conf !! MODE_PASSWORD_TOKEN) as [password_token|]; [ | congruence ].
  destruct Hcases as (q' & Hq' & Hseed & Hsteps).
  assert (q' = q) as -> by congruence.
  cbv zeta in Hsteps.
  eexists _, _, _, _.
  split; [ reflexivity | ].
  split; [ exact Hseed | ].
  split; [ exact Hsteps | ].
  split; [ rewrite execute_steps, Hsteps; reflexivity | ].
  split; [ repeat split | ].
  split; [ repeat split | ].
  split; [ repeat split | ].
  split; [ intros st r rq Hrq; now apply requests_join_step in Hrq | ].
  split; [ intros st r1 r2; apply preprocess_url_placeholders | ].
  split; [ intros st r r' k; apply yields_join_step_other | ].
  intros r url response_json Hurl Hget Hfound.
  erewrite join_step_one_record_per_match by (try eassumption; reflexivity).
  simpl. apply yields_gen_of_list.
Qed.

End Plan.

(** ** The driver *)

Section Driver.
Context {E T : Type} `{Extractor E} `{Transformer T}.

Lemma extract_of_falsy (self : ModeDashboardExecutionsExtractor E T) tr record e' tr1 :
  Extractor_extract (_extractor self) tr = (Return (record, e'), tr1) ->
  truthy record = false ->
  extract self tr =
    (Return (PNone, mkModeDashboardExecutionsExtractor (_conf self) e' (_transformer self)), tr1).
Proof.
  intros Hinner Hfalsy. unfold extract.
  rewrite (bind_Return _ _ _ _ _ Hinner). simpl. now rewrite Hfalsy.
Qed.

Lemma extract_of_truthy (self : ModeDashboardExecutionsExtractor E T) tr record e' tr1 :
  Extractor_extract (_extractor self) tr = (Return (record, e'), tr1) ->
  truthy record = true ->
  extract self tr =
    match Transformer_transform (_transformer self) record (tr1 ++ [EvTransform record])%list with
    | (Return v, tr2) =>
        (Return (v, mkModeDashboardExecutionsExtractor (_conf self) e' (_transformer self)), tr2)
    | (Raise e, tr2) => (Raise e, tr2)
    end.
Proof.
  intros Hinner Htruthy. unfold extract.
  rewrite (bind_Return _ _ _ _ _ Hinner). simpl. rewrite Htruthy. simpl.
  unfold bind, emit, ret.
  now destruct (Transformer_transform _ _ _) as [[v|e] tr2].
Qed.

Lemma extract_of_raise (self : ModeDashboardExecutionsExtractor E T) tr e tr1 :
  Extractor_extract (_extractor self) tr = (Raise e, tr1) ->
  extract self tr = (Raise e, tr1).
Proof. intros Hinner. unfold extract. now apply bind_Raise. Qed.

(** C10. When the value the underlying extractor hands out is false
    for Python, whatever it is, [extract] returns [None] and leaves the
    trace as the underlying extractor left it: the record is not handed
    to the transformer. *)
Theorem falsy_record_ends_the_stream
    (self : ModeDashboardExecutionsExtractor E T) tr record e' tr1 :
  Extractor_extract (_extractor self) tr = (Return (record, e'), tr1) ->
  truthy record = false ->
  extract self tr =
    (Return (PNone, mkModeDashboardExecutionsExtractor (_conf self) e' (_transformer self)), tr1)
  /\ transform_calls (snd (extract self tr)) = transform_calls tr1.
Proof.
  intros Hinner Hfalsy.
  rewrite (extract_of_falsy self tr record e' tr1 Hinner Hfalsy). split; reflexivity.
Qed.

(** C6. Once the underlying source is exhausted, any number of calls
    of [extract] in a row return [None] each, none raises, and the
    extractor and the trace are what they were before. *)
Theorem extract_after_exhaustion
    (self : ModeDashboardExecutionsExtractor E T) (n : nat) tr :
  exhausted (_extractor self) ->
  extract_n n self tr = (Return (replicate n PNone, self), tr).
Proof.
  intros Hex. induction n as [ | n IH ]; simpl; [ reflexivity | ].
  assert (Hone : extract self tr = (Return (PNone, self), tr)).
  { rewrite (extract_of_falsy self tr PNone (_extractor self) tr (Hex tr) eq_refl).
    now destruct self. }
  rewrite (bind_Return _ _ _ _ _ Hone). simpl.
  rewrite (bind_Return _ _ _ _ _ IH). reflexivity.
Qed.

End Driver.

(** ** Initialization *)

Section Init.
Context `{Databuilder} `{Env}.

Lemma init_inv (conf : ConfigTree) tr self tr' :
  init conf tr = (Return self, tr') ->
  exists q rest_conf restapi_query timestamp_conf field_name dict_to_model_conf model_class,
    _build_restapi_query conf = Return q /\
    with_fallback (get_scoped_conf conf rest_api_extractor_scope)
      (from_dict [ (REST_API_QUERY, CQuery q);
                   (STATIC_RECORD_DICT, CTree (from_dict [("product", CStr "mode")])) ])
      = Return rest_conf /\
    get rest_conf REST_API_QUERY = Return restapi_query /\
    with_fallback (get_scoped_conf conf timestamp_string_to_epoch_scope)
      (from_dict [ (FIELD_NAME, CStr "execution_timestamp") ]) = Return timestamp_conf /\
    get_string timestamp_conf FIELD_NAME = Return field_name /\
    with_fallback (get_scoped_conf conf dict_to_model_scope)
      (from_dict [ (MODEL_CLASS, CStr DASHBOARD_EXECUTION) ]) = Return dict_to_model_conf /\
    get_string dict_to_model_conf MODEL_CLASS = Return model_class /\
    self =
      {| _conf := conf;
         _extractor :=
           {| RestApiExtractor._restapi_query := restapi_query;
              RestApiExtractor._iterator := None;
              RestApiExtractor._static_dict :=
                get_default rest_conf STATIC_RECORD_DICT (CTree ∅) |};
         _transformer :=
           {| transformers :=
                [ OfTimestampStringToEpoch {| _field_name := field_name |};
                  OfDictToModel {| _model_class := model_class |} ] |} |} /\
    tr' = tr.
Proof.
  unfold init. intros Hinit.
  apply bind_inv in Hinit as (q & t1 & Hq & Hinit). apply lift_inv in Hq as [Hq ->].
  apply bind_inv in Hinit as (rest_conf & t1 & Hrest & Hinit).
  apply lift_inv in Hrest as [Hrest ->].
  apply bind_inv in Hinit as (extractor & t1 & Hex & Hinit).
  unfold RestApiExtractor.init in Hex.
  apply bind_inv in Hex as (restapi_query & t2 & Hrq & Hex).
  apply lift_inv in Hrq as [Hrq ->]. injection Hex as <- <-.
  apply bind_inv in Hinit as (timestamp_conf & t1 & Hts & Hinit).
  apply lift_inv in Hts as [Hts ->].
  apply bind_inv in Hinit as (ts & t1 & Htsi & Hinit).
  unfold TimestampStringToEpoch_init in Htsi.
  apply bind_inv in Htsi as (field_name & t2 & Hfn & Htsi).
  apply lift_inv in Hfn as [Hfn ->]. injection Htsi as <- <-.
  apply bind_inv in Hinit as (dict_to_model_conf & t1 & Hdm & Hinit).
  apply lift_inv in Hdm as [Hdm ->].
  apply bind_inv in Hinit as (dm & t1 & Hdmi & Hinit).
  unfold DictToModel_init in Hdmi.
  apply bind_inv in Hdmi as (model_class & t2 & Hmc & Hdmi).
  apply lift_inv in Hmc as [Hmc ->]. injection Hdmi as <- <-.
  injection Hinit as <- <-.
  exists q, rest_conf, restapi_query, timestamp_conf, field_name, dict_to_model_conf, model_class.
  repeat split; assumption.
Qed.

Lemma silent_ret {A} (a : A) tr : snd (ret a tr) = tr.
Proof. reflexivity. Qed.

Lemma silent_lift {A} (o : Outcome A) tr : snd (lift o tr) = tr.
Proof. reflexivity. Qed.

Lemma silent_bind {A B} (c : M A) (k : A -> M B) :
  (forall tr, snd (c tr) = tr) -> (forall a tr, snd (k a tr) = tr) ->
  forall tr, snd (bind c k tr) = tr.
Proof.
  intros Hc Hk tr. unfold bind. specialize (Hc tr).
  destruct (c tr) as [[a|e] tr1]; simpl in Hc; subst tr1; [ apply Hk | reflexivity ].
Qed.

Ltac silent :=
  cbv beta zeta;
  lazymatch goal with
  | |- forall tr, snd (bind _ _ tr) = tr => apply silent_bind; [ silent | intros ?; silent ]
  | |- forall tr, snd (lift _ tr) = tr => intros ?; reflexivity
  | |- forall tr, snd (ret _ tr) = tr => intros ?; reflexivity
  end.

(** C9. [init] sends nothing, whether it returns or raises, and the
    extractor it returns has not created the generator of its query:
    the requests of the plan are sent by [extract]. *)
Theorem init_sends_nothing (conf : ConfigTree) (tr : list Event) :
  snd (init conf tr) = tr /\
  (forall self, fst (init conf tr) = Return self ->
                RestApiExtractor._iterator (_extractor self) = None).
Proof.
  split.
  - revert tr. unfold init, RestApiExtractor.init, TimestampStringToEpoch_init, DictToModel_init.
    silent.
  - intros self Hself.
    destruct (init conf tr) as [o tr'] eqn:Hinit. simpl in Hself. subst o.
    apply init_inv in Hinit as (q & rc & rq & tc & fn & dc & mc & _ & _ & _ & _ & _ & _ & _ & -> & _).
    reflexivity.
Qed.

End Init.

(** ** The transformer chain *)

Section Chain.

Lemma truthy_insert (d : gmap string json) (k : string) (v : json) :
  truthy (PDict (<[k := v]> d)) = true.
Proof.
  simpl. apply negb_true_iff, Nat.eqb_neq.
  intros Hsize. apply map_size_empty_iff in Hsize. now apply insert_non_empty in Hsize.
Qed.

(** The timestamp transformer returns a dictionary with the same
    fields, the one it is configured for apart, and sends nothing. *)
Lemma timestamp_transform_inv (t : TimestampStringToEpoch) (record : pyval) tr v tr' :
  TimestampStringToEpoch_transform t record tr = (Return v, tr') ->
  exists d normalized,
    record = PDict d /\ v = PDict normalized /\ tr' = tr /\
    (forall k, k <> _field_name t -> normalized !! k = d !! k) /\
    (normalized = d \/
     exists timestamp_str epoch,
       d !! _field_name t = Some (JStr timestamp_str) /\
       parse_iso8601 timestamp_str = Some epoch /\
       normalized = <[_field_name t := JNum epoch]> d).
Proof.
  unfold TimestampStringToEpoch_transform.
  destruct record as [ | | | | | d | ]; try discriminate.
  destruct (d !! _field_name t) as [value|] eqn:Hfield.
  - destruct (negb (json_truthy value)).
    + intros [= <- <-]. exists d, d. repeat split; auto.
    + destruct value as [ | | | timestamp_str | | ]; try discriminate.
      destruct (parse_iso8601 timestamp_str) as [epoch|] eqn:Hparse; try discriminate.
      intros [= <- <-]. exists d, (<[_field_name t := JNum epoch]> d).
      repeat split.
      * intros k Hk. now apply lookup_insert_ne.
      * right. eauto.
  - intros [= <- <-]. exists d, d. repeat split; auto.
Qed.

Lemma timestamp_transform_truthy (t : TimestampStringToEpoch) (record : pyval) tr v tr' :
  TimestampStringToEpoch_transform t record tr = (Return v, tr') ->
  truthy record = true -> truthy v = true.
Proof.
  intros Ht Htruthy.
  apply timestamp_transform_inv in Ht
    as (d & normalized & -> & -> & _ & _ & [-> | (s & epoch & _ & _ & ->)]).
  - exact Htruthy.
  - apply truthy_insert.
Qed.

(** The chain [init] builds, on a record that is true for Python. *)
Lemma chain_pair_inv (t : TimestampStringToEpoch) (m : DictToModel) (record : pyval) tr v tr' :
  chain [OfTimestampStringToEpoch t; OfDictToModel m] record tr = (Return v, tr') ->
  truthy record = true ->
  exists normalized,
    TimestampStringToEpoch_transform t record tr = (Return (PDict normalized), tr) /\
    DictToModel_transform m (PDict normalized) tr = (Return v, tr) /\
    v = PModel (_model_class m) normalized /\
    tr' = tr.
Proof.
  intros Hchain Htruthy. simpl in Hchain.
  apply bind_inv in Hchain as (v1 & tr1 & Hts & Hchain).
  pose proof (timestamp_transform_truthy _ _ _ _ _ Hts Htruthy) as Hv1.
  apply timestamp_transform_inv in Hts as Hinv.
  destruct Hinv as (d & normalized & -> & -> & -> & _).
  rewrite Hv1 in Hchain. simpl in Hchain.
  unfold bind, ret in Hchain. simpl in Hchain. injection Hchain as <- <-.
  exists normalized. repeat split; assumption.
Qed.

End Chain.

Section Initialized.
Context `{Databuilder} `{Env}.

Lemma extract_keeps_transformer {E T : Type} `{Extractor E} `{Transformer T}
    (self : ModeDashboardExecutionsExtractor E T) tr v self' tr' :
  extract self tr = (Return (v, self'), tr') ->
  _conf self' = _conf self /\ _transformer self' = _transformer self.
Proof.
  unfold extract. intros Hex.
  apply bind_inv in Hex as (step & tr1 & _ & Hex). cbv zeta in Hex.
  destruct (negb (truthy (fst step))).
  - now injection Hex as <- <- <-.
  - apply bind_inv in Hex as (result & tr2 & _ & Hex). now injection Hex as <- <- <-.
Qed.

Lemma reachable_transformer (conf : ConfigTree) self :
  reachable conf self ->
  exists t m, transformers (_transformer self) = [OfTimestampStringToEpoch t; OfDictToModel m].
Proof.
  induction 1 as [ tr tr' self Hinit | self tr v self' tr' _ IH Hex ].
  - apply init_inv in Hinit
      as (q & rc & rq & tc & fn & dc & mc & _ & _ & _ & _ & _ & _ & _ & -> & _).
    simpl. eauto.
  - apply extract_keeps_transformer in Hex as [_ ->]. exact IH.
Qed.

(** What a returning call of [extract] on an initialized extractor has
    done, by the value of the REST extractor. *)
Lemma extract_initialized_inv (conf : ConfigTree) self tr v self' tr' :
  reachable conf self ->
  extract self tr = (Return (v, self'), tr') ->
  exists record tr1,
    Extractor_extract (_extractor self) tr = (Return (record, _extractor self'), tr1) /\
    ((truthy record = false /\ v = PNone /\ tr' = tr1 /\
      transform_calls tr' = transform_calls tr1)
     \/
     (truthy record = true /\ tr' = (tr1 ++ [EvTransform record])%list /\
      exists timestamp_transformer dict_to_model normalized,
        transformers (_transformer self) =
          [OfTimestampStringToEpoch timestamp_transformer; OfDictToModel dict_to_model] /\
        TimestampStringToEpoch_transform timestamp_transformer record tr'
          = (Return (PDict normalized), tr') /\
        DictToModel_transform dict_to_model (PDict normalized) tr' = (Return v, tr') /\
        v = PModel (_model_class dict_to_model) normalized)) /\
    (forall d, v <> PDict d).
Proof.
  intros Hreach Hex.
  destruct (reachable_transformer conf self Hreach) as (t & m & Hchain).
  destruct (Extractor_extract (_extractor self) tr) as [[[record e']|e] tr1] eqn:Hinner.
  - destruct (truthy record) eqn:Htruthy.
    + rewrite (extract_of_truthy self tr record e' tr1 Hinner Htruthy) in Hex.
      destruct (Transformer_transform (_transformer self) record (tr1 ++ [EvTransform record])%list)
        as [[v1|e1] tr2] eqn:Htrans; [ | discriminate ].
      injection Hex as <- <- <-. simpl.
      simpl in Htrans. unfold ChainedTransformer_transform in Htrans. rewrite Hchain in Htrans.
      apply chain_pair_inv in Htrans as (normalized & Hts & Hdm & -> & ->); [ | exact Htruthy ].
      exists record, tr1. split; [ reflexivity | ]. split; [ | discriminate ].
      right. split; [ exact Htruthy | ]. split; [ reflexivity | ].
      exists t, m, normalized. auto.
    + rewrite (extract_of_falsy self tr record e' tr1 Hinner Htruthy) in Hex.
      injection Hex as <- <- <-. simpl.
      exists record, tr1. split; [ reflexivity | ]. split; [ | discriminate ].
      left. auto.
  - rewrite (extract_of_raise self tr e tr1 Hinner) in Hex. discriminate.
Qed.

(** C1. On an initialized extractor a call of [extract] does one of
    three things, by what the REST extractor does.  When the REST
    extractor raises, the exception leaves [extract].  When it hands out
    a value that is false for Python, [extract] returns [None] and the
    transformer is not called.  Otherwise the record is handed to the
    chain, whose first transformer is the timestamp transformer and whose
    second is the mapper: [extract] returns the model the mapper builds
    from the normalized record, or raises what the timestamp transformer
    raised.  A value it returns is [None] or a model, never a dictionary. *)
Theorem extract_returns_model_or_none (conf : ConfigTree) self tr :
  reachable conf self ->
  exists timestamp_transformer dict_to_model,
    transformers (_transformer self) =
      [OfTimestampStringToEpoch timestamp_transformer; OfDictToModel dict_to_model] /\
    match Extractor_extract (_extractor self) tr with
    | (Raise e, tr1) => extract self tr = (Raise e, tr1)
    | (Return (record, extractor'), tr1) =>
        let self' :=
          mkModeDashboardExecutionsExtractor (_conf self) extractor' (_transformer self) in
        if truthy record then
          let tr2 := (tr1 ++ [EvTransform record])%list in
          match TimestampStringToEpoch_transform timestamp_transformer record tr2 with
          | (Return normalized, _) =>
              exists kwargs,
                normalized = PDict kwargs /\
                DictToModel_transform dict_to_model normalized tr2
                = (Return (PModel (_model_class dict_to_model) kwargs), tr2) /\
                extract self tr
                = (Return (PModel (_model_class dict_to_model) kwargs, self'), tr2)
          | (Raise e, _) => extract self tr = (Raise e, tr2)
          end
        else
          extract self tr = (Return (PNone, self'), tr1) /\
          transform_calls (snd (extract self tr)) = transform_calls tr1
    end.
Proof.
  intros Hreach.
  destruct (reachable_transformer conf self Hreach) as (t & m & Hchain).
  exists t, m. split; [ exact Hchain | ].
  destruct (Extractor_extract (_extractor self) tr) as [[[record e']|e] tr1] eqn:Hinner.
  - cbv zeta. destruct (truthy record) eqn:Htruthy.
    + rewrite (extract_of_truthy self tr record e' tr1 Hinner Htruthy).
      simpl. unfold ChainedTransformer_transform. rewrite Hchain. simpl.
      assert (Hsilent : forall r t0, snd (TimestampStringToEpoch_transform t r t0) = t0).
      { intros r t0. unfold TimestampStringToEpoch_transform.
        destruct r; try reflexivity.
        destruct (d !! _field_name t) as [value|]; try reflexivity.
        destruct (negb (json_truthy value)); try reflexivity.
        destruct value; try reflexivity.
        destruct (parse_iso8601 s); reflexivity. }
      specialize (Hsilent record (tr1 ++ [EvTransform record])%list).
      destruct (TimestampStringToEpoch_transform t record (tr1 ++ [EvTransform record])%list)
        as [[normalized|e] tr2] eqn:Hts; simpl in Hsilent; subst tr2.
      * rewrite (bind_Return _ _ _ _ _ Hts).
        pose proof (timestamp_transform_truthy _ _ _ _ _ Hts Htruthy) as Hnormalized.
        apply timestamp_transform_inv in Hts as (d & kwargs & _ & -> & _).
        rewrite Hnormalized. exists kwargs. repeat split; reflexivity.
      * rewrite (bind_Raise _ _ _ _ _ Hts). reflexivity.
    + rewrite (extract_of_falsy self tr record e' tr1 Hinner Htruthy). split; reflexivity.
  - now apply extract_of_raise.
Qed.

End Initialized.

(** ** Defaults and what a configuration may override *)

Section Fallbacks.
Context `{Databuilder}.

Lemma simple_REST_API_QUERY : split_dots REST_API_QUERY = [REST_API_QUERY].
Proof. pose proof keys_simple as Hk. now inversion Hk. Qed.

Lemma simple_STATIC_RECORD_DICT : split_dots STATIC_RECORD_DICT = [STATIC_RECORD_DICT].
Proof. pose proof keys_simple as Hk. inversion Hk as [ | ? ? _ Hk1 ]. now inversion Hk1. Qed.

Lemma simple_MODEL_CLASS : split_dots MODEL_CLASS = [MODEL_CLASS].
Proof.
  pose proof keys_simple as Hk. inversion Hk as [ | ? ? _ Hk1 ].
  inversion Hk1 as [ | ? ? _ Hk2 ]. now inversion Hk2.
Qed.

Lemma simple_FIELD_NAME : split_dots FIELD_NAME = [FIELD_NAME].
Proof.
  pose proof keys_simple as Hk. inversion Hk as [ | ? ? _ Hk1 ].
  inversion Hk1 as [ | ? ? _ Hk2 ]. inversion Hk2 as [ | ? ? _ Hk3 ]. now inversion Hk3.
Qed.

Lemma from_dict_one (key : string) (v : ConfigValue) :
  split_dots key = [key] -> from_dict [(key, v)] = {[ key := v ]}.
Proof.
  intros Hkey. unfold from_dict. simpl. rewrite Hkey. simpl.
  rewrite lookup_empty. reflexivity.
Qed.

Lemma from_dict_two (k1 k2 : string) (v1 v2 : ConfigValue) :
  split_dots k1 = [k1] -> split_dots k2 = [k2] -> k1 <> k2 ->
  from_dict [(k1, v1); (k2, v2)] = <[k2 := v2]> {[ k1 := v1 ]}.
Proof.
  intros H1 H2 Hne. unfold from_dict. simpl. rewrite H1, H2. simpl.
  rewrite lookup_empty. rewrite lookup_insert_ne by exact Hne. rewrite lookup_empty.
  reflexivity.
Qed.

Lemma lookup_merge_trees (self fallback : gmap string ConfigValue) (key : string) :
  merge_trees self fallback !! key =
    match self !! key, fallback !! key with
    | Some x, Some y => Some (with_fallback_value x y)
    | Some x, None => Some x
    | None, y => y
    end.
Proof.
  unfold merge_trees. rewrite lookup_union_with.
  destruct (self !! key), (fallback !! key); reflexivity.
Qed.

Lemma with_fallback_inv (self : ConfigValue) (fallback merged : gmap string ConfigValue) :
  with_fallback self fallback = Return merged ->
  exists view, self = CTree view /\ merged = merge_trees view fallback.
Proof. destruct self as [ | | view ]; simpl; intros [= <-]; eauto. Qed.

End Fallbacks.

(** ** The REST extractor *)

Section RestExtractor.
Context `{Env}.

Lemma next_inv (g : Generator) tr step tr' :
  next g tr = (Return step, tr') ->
  (fst step = None /\ snd step = GStop) \/ (exists r, fst step = Some r).
Proof.
  revert tr. induction g as [ | e | url params rest IH | r rest IH ]; simpl; intros tr Hnext.
  - injection Hnext as <- <-. now left.
  - discriminate.
  - unfold bind, emit in Hnext. simpl in Hnext. now apply IH in Hnext.
  - injection Hnext as <- <-. right. eauto.
Qed.

(** What a call of the REST extractor that returns has done: the query
    and the static record are kept; the value is [None], and the generator
    is at its end, or a record updated with the static record. *)
Lemma rest_extract_inv (e : RestApiExtractor.RestAPIExtractor) tr v e' tr' :
  RestApiExtractor.extract e tr = (Return (v, e'), tr') ->
  RestApiExtractor._restapi_query e' = RestApiExtractor._restapi_query e /\
  RestApiExtractor._static_dict e' = RestApiExtractor._static_dict e /\
  ((v = PNone /\ RestApiExtractor._iterator e' = Some GStop)
   \/ exists record updated,
        RestApiExtractor.update_static record (RestApiExtractor._static_dict e) = Return updated /\
        v = PDict updated).
Proof.
  unfold RestApiExtractor.extract. intros Hex.
  apply bind_inv in Hex as (iterator & tr1 & _ & Hex).
  apply bind_inv in Hex as (step & tr2 & Hnext & Hex).
  apply next_inv in Hnext as [[Hnone Hstop] | [r Hsome]].
  - rewrite Hnone in Hex. injection Hex as <- <- <-. simpl. rewrite Hstop. auto.
  - rewrite Hsome in Hex.
    apply bind_inv in Hex as (updated & tr3 & Hup & Hex). apply lift_inv in Hup as [Hup ->].
    injection Hex as <- <- <-. simpl. split; [ reflexivity | ]. split; [ reflexivity | ].
    right. eauto.
Qed.

(** A REST extractor whose generator is at its end is exhausted. *)
Lemma rest_api_extractor_exhausted (e : RestApiExtractor.RestAPIExtractor) :
  RestApiExtractor._iterator e = Some GStop -> exhausted e.
Proof.
  intros Hstop tr. simpl. unfold RestApiExtractor.extract. rewrite Hstop.
  destruct e as [q it st]. simpl in *. subst it. reflexivity.
Qed.

End RestExtractor.

(** ** The transformer and the static record of an initialized extractor *)

Section Defaults.
Context `{Databuilder} `{Env}.

Lemma epoch_of_2021 : parse_iso8601 "2021-01-01T00:00:00Z" = Some 1609459200%Z.
Proof. vm_compute. reflexivity. Qed.

(** C4, as amended. When the configuration sets no field name under
    the scope of the timestamp transformer, the transformer [init]
    builds targets the field [execution_timestamp]; the timestamp
    2021-01-01T00:00:00Z is 1609459200 seconds after the epoch, and a
    record that holds it in that field leaves the timestamp
    transformer, and the chain, with 1609459200 in that field. *)
Theorem timestamp_field_and_epoch (conf : ConfigTree) tr self tr' :
  init conf tr = (Return self, tr') ->
  scoped_entry conf timestamp_string_to_epoch_scope FIELD_NAME = None ->
  exists dict_to_model,
    transformers (_transformer self) =
      [ OfTimestampStringToEpoch {| _field_name := "execution_timestamp" |};
        OfDictToModel dict_to_model ] /\
    parse_iso8601 "2021-01-01T00:00:00Z" = Some 1609459200%Z /\
    forall (d : gmap string json) t,
      d !! "execution_timestamp" = Some (JStr "2021-01-01T00:00:00Z") ->
      TimestampStringToEpoch_transform {| _field_name := "execution_timestamp" |} (PDict d) t
        = (Return (PDict (<["execution_timestamp" := JNum 1609459200]> d)), t) /\
      Transformer_transform (_transformer self) (PDict d) t
        = (Return (PModel (_model_class dict_to_model)
                          (<["execution_timestamp" := JNum 1609459200]> d)), t).
Proof.
  intros Hinit Hentry.
  apply init_inv in Hinit
    as (q & rc & rq & tc & fn & dc & mc & _ & _ & _ & Htc & Hfn & _ & _ & -> & _).
  apply with_fallback_inv in Htc as (view & Hview & ->).
  unfold scoped_entry in Hentry. rewrite Hview in Hentry.
  rewrite get_string_top in Hfn by apply simple_FIELD_NAME.
  rewrite lookup_merge_trees, Hentry in Hfn.
  rewrite from_dict_one in Hfn by apply simple_FIELD_NAME.
  rewrite lookup_singleton_eq in Hfn. injection Hfn as <-.
  exists {| _model_class := mc |}. simpl.
  split; [ reflexivity | ]. split; [ exact epoch_of_2021 | ].
  intros d t Hd.
  assert (Hts : TimestampStringToEpoch_transform {| _field_name := "execution_timestamp" |}
                  (PDict d) t
                = (Return (PDict (<["execution_timestamp" := JNum 1609459200]> d)), t)).
  { unfold TimestampStringToEpoch_transform. cbn [_field_name]. rewrite Hd.
    change (negb (json_truthy (JStr "2021-01-01T00:00:00Z"))) with false. cbv beta iota.
    now rewrite epoch_of_2021. }
  split; [ exact Hts | ].
  unfold ChainedTransformer_transform. simpl.
  rewrite (bind_Return _ _ _ _ _ Hts).
  rewrite truthy_insert. reflexivity.
Qed.

Lemma product_is_no_timestamp : parse_iso8601 "mode" = None.
Proof. vm_compute. reflexivity. Qed.

(** The static record of an initialized extractor whose configuration
    leaves the product alone is a tree that holds the product of Mode. *)
Lemma reachable_static_product (conf : ConfigTree) self :
  product_left_alone conf ->
  reachable conf self ->
  exists static,
    RestApiExtractor._static_dict (_extractor self) = CTree static /\
    static !! "product" = Some (CStr "mode").
Proof.
  intros Halone Hreach.
  induction Hreach as [ tr tr' self Hinit | self tr v self' tr' _ IH Hex ].
  - apply init_inv in Hinit
      as (q & rc & rq & tc & fn & dc & mc & _ & Hrc & _ & _ & _ & _ & _ & -> & _).
    simpl.
    apply with_fallback_inv in Hrc as (view & Hview & ->).
    unfold product_left_alone, scoped_entry in Halone. rewrite Hview in Halone.
    rewrite get_default_top by apply simple_STATIC_RECORD_DICT.
    rewrite lookup_merge_trees.
    rewrite from_dict_two
      by (apply simple_REST_API_QUERY || apply simple_STATIC_RECORD_DICT || apply keys_distinct).
    rewrite lookup_insert_eq.
    rewrite from_dict_one by reflexivity.
    destruct (view !! STATIC_RECORD_DICT) as [[ s | q' | static ]|]; try contradiction; simpl.
    + eexists. split; [ reflexivity | ].
      rewrite lookup_union_with, Halone, lookup_singleton_eq. reflexivity.
    + eexists. split; [ reflexivity | ]. apply lookup_singleton_eq.
  - unfold extract in Hex.
    apply bind_inv in Hex as (step & tr1 & Hinner & Hex). cbv zeta in Hex.
    destruct step as [record e']. simpl in Hinner.
    apply rest_extract_inv in Hinner as (_ & Hstatic & _).
    assert (Hself' : _extractor self' = e').
    { simpl in Hex. destruct (negb (truthy record)).
      - now injection Hex as <- <- <-.
      - apply bind_inv in Hex as (result & tr2 & _ & Hex). now injection Hex as <- <- <-. }
    rewrite Hself', Hstatic. exact IH.
Qed.

(** C7, as amended. When the configuration leaves the product of the
    static record alone, every value other than [None] that [extract]
    returns on an initialized extractor is a model whose [product] is
    the string mode, whatever the server answered. *)
Theorem emitted_models_carry_product_mode (conf : ConfigTree) self tr v self' tr' :
  product_left_alone conf ->
  reachable conf self ->
  extract self tr = (Return (v, self'), tr') ->
  v <> PNone ->
  exists cls kwargs, v = PModel cls kwargs /\ kwargs !! "product" = Some (JStr "mode").
Proof.
  intros Halone Hreach Hex Hv.
  destruct (reachable_static_product conf self Halone Hreach) as (static & Hstatic & Hproduct).
  destruct (extract_initialized_inv conf self tr v self' tr' Hreach Hex)
    as (record & tr1 & Hinner & [(_ & -> & _) | (Htruthy & _ & t & m & normalized & _ & Hts & _ & ->)] & _);
    [ congruence | ].
  exists (_model_class m), normalized. split; [ reflexivity | ].
  simpl in Hinner. apply rest_extract_inv in Hinner
    as (_ & _ & [[-> _] | (r0 & updated & Hup & ->)]); [ discriminate | ].
  rewrite Hstatic in Hup. simpl in Hup.
  assert (Hsize : Nat.eqb (size static) 0 = false).
  { apply Nat.eqb_neq. intros Hsize. apply map_size_empty_iff in Hsize.
    rewrite Hsize, lookup_empty in Hproduct. discriminate. }
  rewrite Hsize in Hup. injection Hup as <-.
  assert (Hupdated : (omap RestApiExtractor.config_json static ∪ r0) !! "product"
                     = Some (JStr "mode")).
  { apply lookup_union_Some_l. rewrite lookup_omap, Hproduct. reflexivity. }
  apply timestamp_transform_inv in Hts
    as (d & n & [= <-] & [= <-] & _ & Hother & [-> | (s & epoch & Hfield & Hparse & ->)]).
  - exact Hupdated.
  - destruct (decide (_field_name t = "product")) as [Heq | Hne].
    + rewrite Heq, Hupdated in Hfield. injection Hfield as <-.
      rewrite product_is_no_timestamp in Hparse. discriminate.
    + rewrite lookup_insert_ne by exact Hne. exact Hupdated.
Qed.

End Defaults.

(** ** Responses without result *)

Section Skipping.
Context `{Env}.

Lemma assign_keeps field_names sub_record (record_dict : gmap string json) (k : string) :
  is_Some (record_dict !! k) -> is_Some (assign field_names sub_record record_dict !! k).
Proof.
  revert sub_record record_dict.
  induction field_names as [ | name names IH ]; intros sub_record record_dict Hk; simpl.
  - exact Hk.
  - destruct sub_record as [ | v vs ]; [ exact Hk | ].
    apply IH. destruct (decide (name = k)) as [-> | Hne].
    + rewrite lookup_insert_eq. eauto.
    + now rewrite lookup_insert_ne.
Qed.

Lemma assign_binds field_names sub_record (record_dict : gmap string json) (k : string) :
  length sub_record = length field_names ->
  k ∈ field_names -> is_Some (assign field_names sub_record record_dict !! k).
Proof.
  revert sub_record record_dict.
  induction field_names as [ | name names IH ]; intros sub_record record_dict Hlen Hk; simpl.
  - now apply elem_of_nil in Hk.
  - destruct sub_record as [ | v vs ]; [ discriminate | ].
    injection Hlen as Hlen.
    apply elem_of_cons in Hk as [-> | Hk].
    + apply assign_keeps. rewrite lookup_insert_eq. eauto.
    + now apply IH.
Qed.

Lemma yields_yield_sub_records_bound field_names (record_dict : gmap string json)
    sub_records r' (k : string) :
  r' ∈ yields (yield_sub_records field_names record_dict sub_records) ->
  k ∈ field_names -> is_Some (r' !! k).
Proof.
  revert record_dict.
  induction sub_records as [ | sub rest IH ]; intros record_dict Hin Hk; simpl in Hin.
  - now apply elem_of_nil in Hin.
  - destruct (Nat.eqb (length sub) 0) eqn:Hempty; simpl in Hin; [ now apply (IH record_dict) | ].
    destruct (Nat.eqb (length sub) (length field_names)) eqn:Hlen; simpl in Hin;
      [ | now apply (IH record_dict) ].
    apply Nat.eqb_eq in Hlen.
    apply elem_of_cons in Hin as [-> | Hin].
    + now apply assign_binds.
    + now apply (IH _ Hin).
Qed.

(** A step that skips a response without result yields only records
    in which every field it extracts is bound. *)
Lemma yields_join_step_bound (st : Step) (record_dict : gmap string json) r' (k : string) :
  step_skip_no_result st = true ->
  r' ∈ yields (join_step st record_dict) ->
  k ∈ step_field_names st -> is_Some (r' !! k).
Proof.
  unfold join_step. intros Hskip Hin Hk.
  destruct (_preprocess_url (step_url st) record_dict) as [url|e]; simpl in Hin;
    [ | now apply elem_of_nil in Hin ].
  destruct (http_get url (step_params st)) as [response_json|]; simpl in Hin;
    [ | now apply elem_of_nil in Hin ].
  assert (Hsub : forall subs,
             r' ∈ yields match subs with
                         | Raise e => GRaise e
                         | Return subs => yield_sub_records (step_field_names st) record_dict subs
                         end -> is_Some (r' !! k)).
  { intros [subs|e] Hs; simpl in Hs;
      [ eapply yields_yield_sub_records_bound; eassumption | now apply elem_of_nil in Hs ]. }
  destruct (jsonpath_find (step_json_path st) response_json) as [ | v vs ].
  - rewrite Hskip in Hin.
    destruct (step_fail_no_result st); simpl in Hin; now apply elem_of_nil in Hin.
  - exact (Hsub _ Hin).
Qed.



End Skipping.

Section SkippingPlan.
Context `{Databuilder} `{Env}.


End SkippingPlan.

(** * The organization [acme] *)

Section Acme.
Import Instances.
#[local] Existing Instance databuilder.
#[local] Existing Instance acme.

Lemma acme_plan : _build_restapi_query acme_conf = Return acme_query.
Proof. vm_compute. reflexivity. Qed.

Lemma acme_init : init acme_conf [] = (Return acme_initialized, []).
Proof. vm_compute. reflexivity. Qed.

(** The scenario of the spec: the first call of [extract] sends the
    three requests and returns the model; the source is then at its end. *)
Lemma acme_first_extract :
  extract acme_initialized [] = (Return (acme_model, acme_exhausted), acme_trace).
Proof. vm_compute. reflexivity. Qed.

Lemma acme_reachable : reachable acme_conf acme_initialized.
Proof. exact (reachable_init acme_conf [] [] acme_initialized acme_init). Qed.

Lemma extract_returns_model_or_none_witness :
  reachable acme_conf acme_initialized /\
  extract acme_initialized [] = (Return (acme_model, acme_exhausted), acme_trace) /\
  exists timestamp_transformer dict_to_model,
    transformers (_transformer acme_initialized) =
      [OfTimestampStringToEpoch timestamp_transformer; OfDictToModel dict_to_model].
Proof.
  split; [ exact acme_reachable | ]. split; [ exact acme_first_extract | ].
  destruct (extract_returns_model_or_none acme_conf acme_initialized [] acme_reachable)
    as (timestamp_transformer & dict_to_model & Hchain & _).
  exists timestamp_transformer, dict_to_model. exact Hchain.
Defined.

Lemma query_plan_is_three_joined_steps_witness :
  _build_restapi_query acme_conf = Return acme_query /\
  exists s1 s2 s3,
    steps acme_query = [s1; s2; s3] /\
    placeholders (step_url s1) = ["organization"] /\
    placeholders (step_url s2) = ["organization"; "dashboard_group_id"] /\
    placeholders (step_url s3) = ["last_run_resource_path"].
Proof.
  split; [ exact acme_plan | ].
  destruct (query_plan_is_three_joined_steps acme_conf acme_query acme_plan)
    as (organization & s1 & s2 & s3 & _ & _ & Hsteps & _
        & (_ & H1 & _) & (_ & H2 & _) & (_ & H3 & _) & _).
  exists s1, s2, s3. auto.
Defined.

Lemma one_credential_for_all_steps_witness :
  _build_restapi_query acme_conf = Return acme_query /\
  exists user_token password_token,
    Forall (fun st => step_params st = {[ "auth" := mkHTTPBasicAuth user_token password_token ]})
           (steps acme_query) /\
    Forall (fun rq => snd rq = {[ "auth" := mkHTTPBasicAuth user_token password_token ]})
           (requests (execute acme_query)).
Proof.
  split; [ exact acme_plan | ].
  destruct (one_credential_for_all_steps acme_conf acme_query acme_plan)
    as (user_token & password_token & _ & _ & _ & Hsteps & Hrequests).
  exists user_token, password_token. auto.
Defined.


Lemma init_fails_without_required_key_witness :
  ORGANIZATION ∈ [ORGANIZATION; MODE_ACCESS_TOKEN; MODE_PASSWORD_TOKEN] /\
  (delete ORGANIZATION acme_conf : ConfigTree) !! ORGANIZATION = None /\
  exists missing,
    init (delete ORGANIZATION acme_conf) [] = (Raise (ConfigMissingException missing), []).
Proof.
  assert (Hin : ORGANIZATION ∈ [ORGANIZATION; MODE_ACCESS_TOKEN; MODE_PASSWORD_TOKEN])
    by repeat constructor.
  assert (Hnone : (delete ORGANIZATION acme_conf : ConfigTree) !! ORGANIZATION = None)
    by apply lookup_delete_eq.
  split; [ exact Hin | ]. split; [ exact Hnone | ].
  destruct (init_fails_without_required_key (delete ORGANIZATION acme_conf) [] ORGANIZATION
              Hin Hnone) as (missing & _ & _ & _ & Hinit).
  exists missing. exact Hinit.
Defined.

Lemma acme_source_exhausted : exhausted (_extractor acme_exhausted).
Proof. now apply rest_api_extractor_exhausted. Qed.

Lemma extract_after_exhaustion_witness :
  exhausted (_extractor acme_exhausted) /\
  extract_n 3 acme_exhausted acme_trace
  = (Return ([PNone; PNone; PNone], acme_exhausted), acme_trace).
Proof.
  split; [ exact acme_source_exhausted | ].
  exact (extract_after_exhaustion acme_exhausted 3 acme_trace acme_source_exhausted).
Defined.

Lemma falsy_record_ends_the_stream_witness :
  Extractor_extract (_extractor (scripted [PDict ∅; PStr "later"])) []
  = (Return (PDict ∅, [PStr "later"]), []) /\
  truthy (PDict ∅) = false /\
  extract (scripted [PDict ∅; PStr "later"]) [] = (Return (PNone, scripted [PStr "later"]), []).
Proof.
  split; [ reflexivity | ]. split; [ reflexivity | ].
  exact (proj1 (falsy_record_ends_the_stream (scripted [PDict ∅; PStr "later"]) []
                  (PDict ∅) [PStr "later"] [] eq_refl eq_refl)).
Defined.

(** Values that are false for Python. *)
Lemma falsy_values :
  truthy PNone = false /\ truthy (PStr "") = false /\ truthy (PDict ∅) = false /\
  truthy (PList []) = false /\ truthy (PInt 0) = false /\ truthy (PBool false) = false.
Proof. repeat split; reflexivity. Qed.

Lemma acme_no_override :
  scoped_entry acme_conf timestamp_string_to_epoch_scope FIELD_NAME = None.
Proof. vm_compute. reflexivity. Qed.

Lemma timestamp_field_and_epoch_witness :
  init acme_conf [] = (Return acme_initialized, []) /\
  scoped_entry acme_conf timestamp_string_to_epoch_scope FIELD_NAME = None /\
  exists dict_to_model,
    transformers (_transformer acme_initialized) =
      [ OfTimestampStringToEpoch {| _field_name := "execution_timestamp" |};
        OfDictToModel dict_to_model ] /\
    Transformer_transform (_transformer acme_initialized) (PDict acme_record) []
    = (Return (PModel (_model_class dict_to_model)
                      (<["execution_timestamp" := JNum 1609459200]> acme_record)), []).
Proof.
  split; [ exact acme_init | ]. split; [ exact acme_no_override | ].
  destruct (timestamp_field_and_epoch acme_conf [] acme_initialized [] acme_init acme_no_override)
    as (dict_to_model & Hchain & _ & Hrun).
  exists dict_to_model. split; [ exact Hchain | ].
  apply (Hrun acme_record []). vm_compute. reflexivity.
Defined.

Lemma acme_product_left_alone : product_left_alone acme_conf.
Proof. vm_compute. exact I. Qed.

Lemma emitted_models_carry_product_mode_witness :
  product_left_alone acme_conf /\
  reachable acme_conf acme_initialized /\
  extract acme_initialized [] = (Return (acme_model, acme_exhausted), acme_trace) /\
  acme_model <> PNone /\
  exists cls kwargs, acme_model = PModel cls kwargs /\ kwargs !! "product" = Some (JStr "mode").
Proof.
  assert (Hmodel : acme_model <> PNone) by discriminate.
  split; [ exact acme_product_left_alone | ]. split; [ exact acme_reachable | ].
  split; [ exact acme_first_extract | ]. split; [ exact Hmodel | ].
  exact (emitted_models_carry_product_mode acme_conf acme_initialized [] acme_model
           acme_exhausted acme_trace acme_product_left_alone acme_reachable
           acme_first_extract Hmodel).
Defined.

(** C4 fails where the configuration names another field: the
    transformer then targets [completed_at], and the timestamp in
    [execution_timestamp] reaches the model as the string it was. *)
Lemma timestamp_field_overridden :
  exists self,
    init acme_conf_other_field [] = (Return self, []) /\
    transformers (_transformer self) =
      [ OfTimestampStringToEpoch {| _field_name := "completed_at" |};
        OfDictToModel {| _model_class := DASHBOARD_EXECUTION |} ] /\
    Transformer_transform (_transformer self) (PDict acme_record) []
    = (Return (PModel DASHBOARD_EXECUTION acme_record), []) /\
    acme_record !! "execution_timestamp" = Some (JStr "2021-01-01T00:00:00Z").
Proof.
  eexists. split; [ vm_compute; reflexivity | ].
  split; [ reflexivity | ]. split; vm_compute; reflexivity.
Qed.

(** C7 fails in two ways.  Where the configuration names another
    product, the model [extract] returns carries that product.  Where
    the configuration puts an empty string in the place of the static
    record, the string stands before the fallback of [init], nothing is
    added to the record, and the model carries no product at all. *)
Lemma product_overridden_or_dropped :
  (exists self self' kwargs tr',
      init acme_conf_other_product [] = (Return self, []) /\
      extract self [] = (Return (PModel DASHBOARD_EXECUTION kwargs, self'), tr') /\
      kwargs !! "product" = Some (JStr "looker")) /\
  (exists self self' kwargs tr',
      init acme_conf_no_static [] = (Return self, []) /\
      RestApiExtractor._static_dict (_extractor self) = CStr "" /\
      extract self [] = (Return (PModel DASHBOARD_EXECUTION kwargs, self'), tr') /\
      kwargs !! "product" = None).
Proof.
  split.
  - eexists _, _, _, _. do 2 (split; [ vm_compute; reflexivity | ]). vm_compute. reflexivity.
  - eexists _, _, _, _. do 3 (split; [ vm_compute; reflexivity | ]). vm_compute. reflexivity.
Qed.

End Acme.

(** * Two organizations: one without a space, one with a report never run *)

Section TwoOrganizations.
Import Instances.
#[local] Existing Instance databuilder.
#[local] Existing Instance two_organizations.


End TwoOrganizations.

(** * The organization whose report was never run *)

Section AcmeNeverRun.
Import Instances.
#[local] Existing Instance databuilder.
#[local] Existing Instance acme_never_run.

(** The scenario of the spec: the report has no last run, the run
    request is not sent, and the report gives no record. *)
Lemma never_run_report_gives_no_record :
  extract acme_initialized []
  = (Return (PNone, acme_exhausted),
     [ EvHttpGet "https://app.mode.com/api/acme/spaces?filter=all" acme_params;
       EvHttpGet "https://app.mode.com/api/acme/spaces/sp1/reports" acme_params ]).
Proof. vm_compute. reflexivity. Qed.

End AcmeNeverRun.

(** * Further properties *)

(** ** Building the query and initializing *)

Section Building.
Context `{Databuilder} `{Env}.

(** X1. [_build_restapi_query] returns a query exactly when the
    configuration holds the organization and the two tokens.  Otherwise
    it raises for the first of them that is missing, in the order the
    source reads them: organization, user token, password token. *)
Theorem build_restapi_query_succeeds_iff (conf : ConfigTree) :
  ((exists q, _build_restapi_query conf = Return q) <->
   is_Some (conf !! ORGANIZATION) /\
   is_Some (conf !! MODE_ACCESS_TOKEN) /\
   is_Some (conf !! MODE_PASSWORD_TOKEN)) /\
  (conf !! ORGANIZATION = None ->
   _build_restapi_query conf = Raise (ConfigMissingException ORGANIZATION)) /\
  (is_Some (conf !! ORGANIZATION) -> conf !! MODE_ACCESS_TOKEN = None ->
   _build_restapi_query conf = Raise (ConfigMissingException MODE_ACCESS_TOKEN)) /\
  (is_Some (conf !! ORGANIZATION) -> is_Some (conf !! MODE_ACCESS_TOKEN) ->
   conf !! MODE_PASSWORD_TOKEN = None ->
   _build_restapi_query conf = Raise (ConfigMissingException MODE_PASSWORD_TOKEN)).
Proof.
  pose proof (build_restapi_query_cases conf) as Hcases.
  destruct (conf !! ORGANIZATION) as [organization|];
    [ destruct (conf !! MODE_ACCESS_TOKEN) as [user_token|];
      [ destruct (conf !! MODE_PASSWORD_TOKEN) as [password_token|] | ] | ].
  - destruct Hcases as (q & Hq & _).
    split; [ split; eauto | ].
    repeat split; intros; try discriminate;
      repeat match goal with Hs : is_Some None |- _ => destruct Hs; discriminate end.
  - split; [ split | ].
    + intros [q Hq]. congruence.
    + intros (_ & _ & [x Hx]). discriminate.
    + repeat split; intros; try discriminate; try assumption.
  - split; [ split | ].
    + intros [q Hq]. congruence.
    + intros (_ & [x Hx] & _). discriminate.
    + repeat split; intros; try discriminate; try assumption;
        repeat match goal with Hs : is_Some None |- _ => destruct Hs; discriminate end.
  - split; [ split | ].
    + intros [q Hq]. congruence.
    + intros ([x Hx] & _). discriminate.
    + repeat split; intros; try discriminate; try assumption;
        repeat match goal with Hs : is_Some None |- _ => destruct Hs; discriminate end.
Qed.

(** X2. [init] returns an extractor only when the configuration
    holds the organization and the two tokens, and what it holds under
    each of the three scopes is a tree (or nothing): a scope that names a
    leaf has no fallback to be layered over.  When [init] returns, the
    extractor keeps the configuration it was given. *)
Theorem init_returns_only_with_keys_and_trees (conf : ConfigTree) tr self tr' :
  init conf tr = (Return self, tr') ->
  (is_Some (conf !! ORGANIZATION) /\
   is_Some (conf !! MODE_ACCESS_TOKEN) /\
   is_Some (conf !! MODE_PASSWORD_TOKEN)) /\
  (exists view, get_scoped_conf conf rest_api_extractor_scope = CTree view) /\
  (exists view, get_scoped_conf conf timestamp_string_to_epoch_scope = CTree view) /\
  (exists view, get_scoped_conf conf dict_to_model_scope = CTree view) /\
  _conf self = conf.
Proof.
  intros Hinit.
  apply init_inv in Hinit
    as (q & rc & rq & tc & fn & dc & mc & Hq & Hrc & _ & Htc & _ & Hdc & _ & -> & _).
  apply with_fallback_inv in Hrc as (v1 & Hv1 & _).
  apply with_fallback_inv in Htc as (v2 & Hv2 & _).
  apply with_fallback_inv in Hdc as (v3 & Hv3 & _).
  split; [ | simpl; eauto 10 ].
  pose proof (build_restapi_query_cases conf) as Hcases.
  destruct (conf !! ORGANIZATION) as [organization|]; [ | congruence ].
  destruct (conf !! MODE_ACCESS_TOKEN) as [user_token|]; [ | congruence ].
  destruct (conf !! MODE_PASSWORD_TOKEN) as [password_token|]; [ | congruence ].
  eauto.
Qed.

End Building.

(** ** What [init] wires together *)

Section Wiring.
Context `{Databuilder} `{Env}.

(** The query of the REST extractor: what the configuration puts
    under its scope, and the built query when it puts none there. *)
Lemma reachable_query_or_override (conf : ConfigTree) self :
  reachable conf self ->
  exists q,
    _build_restapi_query conf = Return q /\
    RestApiExtractor._restapi_query (_extractor self)
    = default (CQuery q) (scoped_entry conf rest_api_extractor_scope REST_API_QUERY) /\
    _conf self = conf.
Proof.
  intros Hreach.
  induction Hreach as [ tr tr' self Hinit | self tr v self' tr' Hreach IH Hex ].
  - apply init_inv in Hinit
      as (q & rc & rq & tc & fn & dc & mc & Hq & Hrc & Hrq & _ & _ & _ & _ & -> & _).
    exists q. split; [ exact Hq | ]. split; [ | reflexivity ]. simpl.
    apply with_fallback_inv in Hrc as (view & Hview & ->).
    unfold scoped_entry. rewrite Hview.
    rewrite get_top in Hrq by apply simple_REST_API_QUERY.
    rewrite lookup_merge_trees in Hrq.
    rewrite from_dict_two in Hrq
      by (apply simple_REST_API_QUERY || apply simple_STATIC_RECORD_DICT
          || apply keys_distinct).
    rewrite lookup_insert_ne in Hrq by (intros Heq; now apply keys_distinct).
    rewrite lookup_singleton_eq in Hrq.
    destruct (view !! REST_API_QUERY) as [[ s | q' | t ]|]; now injection Hrq as <-.
  - destruct IH as (q & Hq & Hquery & Hconf).
    exists q. split; [ exact Hq | ].
    destruct (extract_initialized_inv conf self tr v self' tr' Hreach Hex)
      as (record & tr1 & Hinner & _).
    simpl in Hinner. apply rest_extract_inv in Hinner as (Hkept & _).
    apply extract_keeps_transformer in Hex as [Hconf' _].
    split; congruence.
Qed.

Lemma reachable_query (conf : ConfigTree) self :
  reachable conf self ->
  scoped_entry conf rest_api_extractor_scope REST_API_QUERY = None ->
  exists q,
    _build_restapi_query conf = Return q /\
    RestApiExtractor._restapi_query (_extractor self) = CQuery q /\
    _conf self = conf.
Proof.
  intros Hreach Hentry.
  destruct (reachable_query_or_override conf self Hreach) as (q & Hq & Hquery & Hconf).
  rewrite Hentry in Hquery. eauto.
Qed.

(** X3. The query the REST extractor of an initialized extractor
    executes is the one [_build_restapi_query] builds from the
    configuration, unless the configuration puts a value of its own under
    the key of the query in the scope of the REST extractor: that value
    stands before the built query, which [init] passes as a fallback.
    Calls of [extract] keep the query and the configuration. *)
Theorem built_query_is_the_one_executed (conf : ConfigTree) self :
  reachable conf self ->
  exists q,
    _build_restapi_query conf = Return q /\
    RestApiExtractor._restapi_query (_extractor self)
    = default (CQuery q) (scoped_entry conf rest_api_extractor_scope REST_API_QUERY) /\
    _conf self = conf.
Proof. exact (reachable_query_or_override conf self). Qed.

Lemma reachable_model_class (conf : ConfigTree) self :
  reachable conf self ->
  scoped_entry conf dict_to_model_scope MODEL_CLASS = None ->
  exists t,
    transformers (_transformer self) =
      [OfTimestampStringToEpoch t; OfDictToModel {| _model_class := DASHBOARD_EXECUTION |}].
Proof.
  intros Hreach Hentry.
  induction Hreach as [ tr tr' self Hinit | self tr v self' tr' Hreach IH Hex ].
  - apply init_inv in Hinit
      as (q & rc & rq & tc & fn & dc & mc & _ & _ & _ & _ & _ & Hdc & Hmc & -> & _).
    apply with_fallback_inv in Hdc as (view & Hview & ->).
    unfold scoped_entry in Hentry. rewrite Hview in Hentry.
    rewrite get_string_top in Hmc by apply simple_MODEL_CLASS.
    rewrite lookup_merge_trees, Hentry in Hmc.
    rewrite from_dict_one in Hmc by apply simple_MODEL_CLASS.
    rewrite lookup_singleton_eq in Hmc. injection Hmc as <-.
    simpl. eauto.
  - apply extract_keeps_transformer in Hex as [_ ->]. exact IH.
Qed.

(** X4. Unless the configuration names a model class under the scope
    of the model transformer, every value other than [None] that
    [extract] returns on an initialized extractor is an instance of
    [databuilder.models.dashboard.dashboard_execution.DashboardExecution]. *)
Theorem returned_models_are_dashboard_executions (conf : ConfigTree) self tr v self' tr' :
  scoped_entry conf dict_to_model_scope MODEL_CLASS = None ->
  reachable conf self ->
  extract self tr = (Return (v, self'), tr') ->
  v <> PNone ->
  exists kwargs,
    v = PModel "databuilder.models.dashboard.dashboard_execution.DashboardExecution" kwargs.
Proof.
  intros Hentry Hreach Hex Hv.
  destruct (reachable_model_class conf self Hreach Hentry) as (t & Hchain).
  destruct (extract_initialized_inv conf self tr v self' tr' Hreach Hex)
    as (record & tr1 & _ & [(_ & -> & _) | (_ & _ & t' & m & normalized & Hchain' & _ & _ & ->)] & _);
    [ congruence | ].
  rewrite Hchain in Hchain'. injection Hchain' as _ <-.
  exists normalized. reflexivity.
Qed.

End Wiring.

(** ** The records of the plan *)

Section Records.
Context `{Databuilder} `{Env}.

(** A template can be filled from a record only when the record binds
    every replacement field of the template. *)
Lemma format_from_bound (template : string) (field : option string)
    (r : gmap string json) (s k : string) :
  format_from template field r = Return s ->
  k ∈ placeholders_from template field -> is_Some (r !! k).
Proof.
  revert field s.
  induction template as [ | c rest IH ]; intros field s Hformat Hk; simpl in *.
  - now apply elem_of_nil in Hk.
  - destruct field as [name|].
    + destruct (Ascii.eqb c "}").
      * apply elem_of_cons in Hk as [-> | Hk].
        -- destruct (r !! name); [ eauto | discriminate ].
        -- destruct (r !! name); [ | discriminate ].
           apply obind_inv in Hformat as (s' & Hs' & _). now apply (IH None s').
      * eapply IH; eassumption.
    + destruct (Ascii.eqb c "{"); [ eapply IH; eassumption | ].
      destruct (Ascii.eqb c "}"); [ discriminate | ].
      apply obind_inv in Hformat as (s' & Hs' & _). now apply (IH None s').
Qed.

(** A step yields a record only after its URL could be filled from
    the record it is joined to. *)
Lemma yields_join_step_requested (st : Step) (r r' : gmap string json) :
  r' ∈ yields (join_step st r) ->
  exists url, _preprocess_url (step_url st) r = Return url.
Proof.
  unfold join_step.
  destruct (_preprocess_url (step_url st) r) as [url|e]; simpl; [ eauto | ].
  intros Hin. now apply elem_of_nil in Hin.
Qed.

Lemma yields_join_step_placeholder (st : Step) (r r' : gmap string json) (k : string) :
  r' ∈ yields (join_step st r) ->
  k ∈ placeholders (step_url st) -> is_Some (r !! k).
Proof.
  intros Hin Hk. apply yields_join_step_requested in Hin as [url Hurl].
  exact (format_from_bound _ _ _ _ _ Hurl Hk).
Qed.

Lemma plan_records_fields (conf : ConfigTree) (q : BaseRestApiQuery)
    (r : gmap string json) :
  _build_restapi_query conf = Return q ->
  r ∈ yields (execute q) ->
  exists organization,
    get_string conf ORGANIZATION = Return organization /\
    r !! "organization" = Some (JStr organization) /\
    Forall (fun name => is_Some (r !! name))
           [ "dashboard_group_id"; "dashboard_id"; "last_run_resource_path";
             "execution_state"; "execution_timestamp" ].
Proof.
  intros Hq Hr.
  pose proof (build_restapi_query_cases conf) as Hcases.
  rewrite get_string_top by reflexivity.
  destruct (conf !! ORGANIZATION) as [organization|]; [ | congruence ].
  destruct (conf !! MODE_ACCESS_TOKEN) as [user_token|]; [ | congruence ].
  destruct (conf !! MODE_PASSWORD_TOKEN) as [password_token|]; [ | congruence ].
  destruct Hcases as (q' & Hq' & Hseed & Hsteps).
  assert (q' = q) as -> by congruence.
  cbv zeta in Hsteps.
  rewrite execute_steps, Hsteps, Hseed in Hr.
  cbn [foldl gen_of_list foldr] in Hr.
  apply yields_for_each in Hr as (r2 & Hr2 & Hr3).
  apply yields_for_each in Hr2 as (r1 & Hr1 & Hr2).
  apply yields_for_each in Hr1 as (r0 & Hr0 & Hr1).
  cbn [yields] in Hr0.
  apply list_elem_of_singleton in Hr0 as ->.
  exists (config_str organization). split; [ reflexivity | ].
  (* what each step keeps *)
  pose proof (fun k => yields_join_step_other _ _ _ k Hr1) as Hkeep1.
  pose proof (fun k => yields_join_step_other _ _ _ k Hr2) as Hkeep2.
  pose proof (fun k => yields_join_step_other _ _ _ k Hr3) as Hkeep3.
  (* what steps 2 and 3 bind, and what the URL of step 2 needs *)
  pose proof (fun k Hskip => yields_join_step_bound _ _ _ k Hskip Hr2) as Hbind2.
  pose proof (fun k Hskip => yields_join_step_bound _ _ _ k Hskip Hr3) as Hbind3.
  pose proof (fun k => yields_join_step_placeholder _ _ _ k Hr2) as Hneed2.
  cbn [step_field_names step_url step_skip_no_result]
    in Hkeep1, Hkeep2, Hkeep3, Hbind2, Hbind3, Hneed2.
  specialize (fun k => Hbind2 k eq_refl). specialize (fun k => Hbind3 k eq_refl).
  clear Hr1 Hr2 Hr3.
  assert (Hne : forall (a : string) l, Forall (fun b => a <> b) l -> a ∉ l).
  { intros a l Hall Hin. rewrite Forall_forall in Hall. exact (Hall a Hin eq_refl). }
  assert (Hplaceholders :
            placeholders reports_url = ["organization"; "dashboard_group_id"])
    by (vm_compute; reflexivity).
  rewrite Hplaceholders in Hneed2.
  split.
  - rewrite Hkeep3 by (apply Hne; repeat constructor; discriminate).
    rewrite Hkeep2 by (apply Hne; repeat constructor; discriminate).
    rewrite Hkeep1 by (apply Hne; repeat constructor; discriminate).
    apply lookup_singleton_eq.
  - repeat apply Forall_cons_2; [ | | | | | apply Forall_nil_2 ].
    + rewrite Hkeep3 by (apply Hne; repeat constructor; discriminate).
      rewrite Hkeep2 by (apply Hne; repeat constructor; discriminate).
      apply Hneed2. repeat constructor.
    + rewrite Hkeep3 by (apply Hne; repeat constructor; discriminate).
      apply Hbind2. repeat constructor.
    + rewrite Hkeep3 by (apply Hne; repeat constructor; discriminate).
      apply Hbind2. repeat constructor.
    + apply Hbind3. repeat constructor.
    + apply Hbind3. repeat constructor.
Qed.

(** X5. Every record the plan yields keeps the organization of the
    configuration and binds the five fields of the three steps: the
    space, the report, the path of its last run, and the state and the
    time of that run.  The space is bound although step 1 is built
    without [skip_no_result]: the URL of step 2 cannot be filled
    without it. *)
Theorem plan_records_bind_all_fields (conf : ConfigTree) (q : BaseRestApiQuery)
    (r : gmap string json) :
  _build_restapi_query conf = Return q ->
  r ∈ yields (execute q) ->
  exists organization,
    get_string conf ORGANIZATION = Return organization /\
    r !! "organization" = Some (JStr organization) /\
    Forall (fun name => is_Some (r !! name))
           [ "dashboard_group_id"; "dashboard_id"; "last_run_resource_path";
             "execution_state"; "execution_timestamp" ].
Proof. exact (plan_records_fields conf q r). Qed.

End Records.

(** ** The requests of the plan *)

Section Requests.
Context `{Databuilder} `{Env}.

(** A character of a template that is no brace is copied to the URL. *)
Lemma format_from_char (c : ascii) (rest : string) (r : gmap string json) (s : string) :
  Ascii.eqb c "{" = false -> Ascii.eqb c "}" = false ->
  format_from (String c rest) None r = Return s ->
  exists s', s = String c s' /\ format_from rest None r = Return s'.
Proof.
  intros Hopen Hclose. simpl. rewrite Hopen, Hclose. intros Hformat.
  apply obind_inv in Hformat as (s' & Hs' & [= <-]). eauto.
Qed.

(** Every request of a query is the request of one of its steps, with
    the URL of the step filled from a record. *)
Lemma requests_execute_url (q : BaseRestApiQuery) rq :
  rq ∈ requests (execute q) ->
  exists st r,
    st ∈ steps q /\ _preprocess_url (step_url st) r = Return (fst rq) /\
    snd rq = step_params st.
Proof.
  induction q as [ seed_record | inner IH url params json_path field_names f s o ];
    simpl; intros Hin.
  - exfalso. induction seed_record as [ | r rest IHs ]; simpl in Hin; [ | auto ].
    now apply elem_of_nil in Hin.
  - apply requests_for_each in Hin as [Hin | (r & _ & Hin)].
    + destruct (IH Hin) as (st & r & Hst & Hurl & Hp).
      exists st, r. split; [ apply elem_of_app; now left | auto ].
    + apply requests_join_step in Hin as [Hurl Hp].
      eexists _, r.
      split; [ apply elem_of_app; right; apply list_elem_of_singleton; reflexivity | ].
      split; [ exact Hurl | exact Hp ].
Qed.

Ltac copy_literal Hurl :=
  repeat
    (let s' := fresh "s" in
     apply format_from_char in Hurl as (s' & -> & Hurl); [ | reflexivity | reflexivity ]).

(** X6. Every request of the plan built from a configuration goes to
    Mode: its URL starts with [https://app.mode.com], whatever the
    records hold that fill the templates, and its only parameter is the
    basic authentication made of the two configured tokens. *)
Theorem plan_requests_go_to_mode (conf : ConfigTree) (q : BaseRestApiQuery)
    (url : string) (params : gmap string HTTPBasicAuth) :
  _build_restapi_query conf = Return q ->
  (url, params) ∈ requests (execute q) ->
  (exists path, url = "https://app.mode.com" +:+ path) /\
  exists user_token password_token,
    get_string conf MODE_ACCESS_TOKEN = Return user_token /\
    get_string conf MODE_PASSWORD_TOKEN = Return password_token /\
    params = {[ "auth" := mkHTTPBasicAuth user_token password_token ]}.
Proof.
  intros Hq Hrq.
  pose proof (build_restapi_query_cases conf) as Hcases.
  rewrite !get_string_top by reflexivity.
  destruct (conf !! ORGANIZATION) as [organization|]; [ | congruence ].
  destruct (conf !! MODE_ACCESS_TOKEN) as [user_token|]; [ | congruence ].
  destruct (conf !! MODE_PASSWORD_TOKEN) as [password_token|]; [ | congruence ].
  destruct Hcases as (q' & Hq' & _ & Hsteps).
  assert (q' = q) as -> by congruence.
  cbv zeta in Hsteps.
  apply requests_execute_url in Hrq as (st & r & Hst & Hurl & Hparams).
  rewrite Hsteps in Hst. cbn [fst snd] in Hurl, Hparams.
  unfold _preprocess_url in Hurl.
  assert (Hstep : (exists path, url = "https://app.mode.com" +:+ path) /\
                  step_params st
                  = {[ "auth" := mkHTTPBasicAuth (config_str user_token)
                                                 (config_str password_token) ]}).
  { apply elem_of_cons in Hst as [-> | Hst];
      [ | apply elem_of_cons in Hst as [-> | Hst];
          [ | apply list_elem_of_singleton in Hst as -> ] ];
      cbn [step_url step_params] in *; (split; [ | reflexivity ]).
    - unfold spaces_url in Hurl. copy_literal Hurl. eexists. reflexivity.
    - unfold reports_url in Hurl. copy_literal Hurl. eexists. reflexivity.
    - unfold run_url in Hurl. copy_literal Hurl. eexists. reflexivity. }
  destruct Hstep as [Hprefix Hp].
  split; [ exact Hprefix | ].
  exists (config_str user_token), (config_str password_token).
  split; [ reflexivity | ]. split; [ reflexivity | ]. congruence.
Qed.

End Requests.

(** ** What a call of [extract] sends *)

Section Sending.
Context `{Databuilder} `{Env}.

(** [next] sends the requests that stand before the next record, and
    nothing else; what is left of the generator sends requests of the
    generator. *)
Lemma next_sends (g : Generator) tr o tr' :
  next g tr = (o, tr') ->
  exists sent,
    tr' = (tr ++ map (uncurry EvHttpGet) sent)%list /\
    (forall rq, rq ∈ sent -> rq ∈ requests g) /\
    (forall step rq, o = Return step -> rq ∈ requests (snd step) -> rq ∈ requests g).
Proof.
  revert tr. induction g as [ | e | url params rest IH | r rest IH ]; simpl; intros tr Hnext.
  - injection Hnext as <- <-. exists []. rewrite app_nil_r.
    split; [ reflexivity | ]. split; [ intros rq Hrq; now apply elem_of_nil in Hrq | ].
    now intros step rq [= <-].
  - injection Hnext as <- <-. exists []. rewrite app_nil_r.
    split; [ reflexivity | ]. split; [ intros rq Hrq; now apply elem_of_nil in Hrq | ].
    discriminate.
  - unfold bind, emit in Hnext. simpl in Hnext.
    apply IH in Hnext as (sent & -> & Hsent & Hleft).
    exists ((url, params) :: sent). rewrite <- app_assoc.
    split; [ reflexivity | ]. split.
    + intros rq Hrq. apply elem_of_cons in Hrq as [-> | Hrq]; apply elem_of_cons; auto.
    + intros step rq Ho Hrq. apply elem_of_cons. right. eauto.
  - injection Hnext as <- <-. exists []. rewrite app_nil_r.
    split; [ reflexivity | ]. split; [ intros rq Hrq; now apply elem_of_nil in Hrq | ].
    now intros step rq [= <-].
Qed.

(** A call of the REST extractor adds requests to the trace and
    nothing else; when the generator it holds sends requests of its
    query, so do the call and the generator it leaves. *)
Lemma rest_extract_sends (e : RestApiExtractor.RestAPIExtractor) tr o tr' :
  RestApiExtractor.extract e tr = (o, tr') ->
  exists sent,
    tr' = (tr ++ map (uncurry EvHttpGet) sent)%list /\
    forall q,
      RestApiExtractor._restapi_query e = CQuery q ->
      (forall g rq, RestApiExtractor._iterator e = Some g ->
                    rq ∈ requests g -> rq ∈ requests (execute q)) ->
      (forall rq, rq ∈ sent -> rq ∈ requests (execute q)) /\
      (forall v e' g rq,
          o = Return (v, e') -> RestApiExtractor._iterator e' = Some g ->
          rq ∈ requests g -> rq ∈ requests (execute q)).
Proof.
  unfold RestApiExtractor.extract. intros Hex.
  assert (Hrun : forall g0,
             (step <- next g0 ;;
              let self' := {| RestApiExtractor._restapi_query := RestApiExtractor._restapi_query e;
                              RestApiExtractor._iterator := Some (snd step);
                              RestApiExtractor._static_dict := RestApiExtractor._static_dict e |} in
              match fst step with
              | None => ret (PNone, self')
              | Some record =>
                  record <- lift (RestApiExtractor.update_static record
                                    (RestApiExtractor._static_dict e)) ;;
                  ret (PDict record, self')
              end) tr = (o, tr') ->
             exists sent,
               tr' = (tr ++ map (uncurry EvHttpGet) sent)%list /\
               (forall rq, rq ∈ sent -> rq ∈ requests g0) /\
               (forall v e' g rq,
                   o = Return (v, e') -> RestApiExtractor._iterator e' = Some g ->
                   rq ∈ requests g -> rq ∈ requests g0)).
  { intros g0 Hrun. unfold bind at 1 in Hrun.
    destruct (next g0 tr) as [[step|exc] tr1] eqn:Hnext.
    - apply next_sends in Hnext as (sent & -> & Hsent & Hleft).
      exists sent. cbv zeta in Hrun.
      assert (Hkept : tr' = (tr ++ map (uncurry EvHttpGet) sent)%list /\
                      forall v e', o = Return (v, e') ->
                                   RestApiExtractor._iterator e' = Some (snd step)).
      { destruct (fst step) as [record|].
        - unfold bind, lift, ret in Hrun.
          destruct (RestApiExtractor.update_static record _) as [updated|exc];
            injection Hrun as <- <-; (split; [ reflexivity | ]).
          + now intros v e' [= <- <-].
          + discriminate.
        - injection Hrun as <- <-. split; [ reflexivity | ]. now intros v e' [= <- <-]. }
      destruct Hkept as [-> Hkept].
      split; [ reflexivity | ]. split; [ exact Hsent | ].
      intros v e' g rq Ho Hg Hrq. rewrite (Hkept v e' Ho) in Hg. injection Hg as <-.
      exact (Hleft step rq eq_refl Hrq).
    - injection Hrun as <- <-.
      apply next_sends in Hnext as (sent & -> & Hsent & _).
      exists sent. split; [ reflexivity | ]. split; [ exact Hsent | ]. discriminate. }
  destruct (RestApiExtractor._iterator e) as [g0|] eqn:Hiterator.
  - rewrite (bind_Return (ret g0) _ tr g0 tr eq_refl) in Hex.
    apply Hrun in Hex as (sent & -> & Hsent & Hleft).
    exists sent. split; [ reflexivity | ]. intros q Hq Hinv. split.
    + intros rq Hrq. exact (Hinv g0 rq eq_refl (Hsent rq Hrq)).
    + intros v e' g rq Ho Hg Hrq. exact (Hinv g0 rq eq_refl (Hleft v e' g rq Ho Hg Hrq)).
  - destruct (RestApiExtractor._restapi_query e) as [ s | q0 | t ] eqn:Hquery.
    + injection Hex as <- <-. exists []. rewrite app_nil_r.
      split; [ reflexivity | ]. discriminate.
    + rewrite (bind_Return (ret (execute q0)) _ tr (execute q0) tr eq_refl) in Hex.
      apply Hrun in Hex as (sent & -> & Hsent & Hleft).
      exists sent. split; [ reflexivity | ]. intros q [= <-] _. split.
      * exact Hsent.
      * exact Hleft.
    + injection Hex as <- <-. exists []. rewrite app_nil_r.
      split; [ reflexivity | ]. discriminate.
Qed.

(** The transformers leave the trace as it is. *)
Lemma chain_silent (ts : list AnyTransformer) (record : pyval) tr :
  snd (chain ts record tr) = tr.
Proof.
  revert record. induction ts as [ | t rest IH ]; intros record; simpl.
  - reflexivity.
  - unfold bind.
    assert (Hone : snd (AnyTransformer_transform t record tr) = tr).
    { destruct t as [t|t]; simpl.
      - unfold TimestampStringToEpoch_transform.
        destruct record as [ | | | | | d | ]; try reflexivity.
        destruct (d !! _field_name t) as [v|]; [ | reflexivity ].
        destruct (negb (json_truthy v)); [ reflexivity | ].
        destruct v; try reflexivity.
        now destruct (parse_iso8601 _).
      - unfold DictToModel_transform. now destruct record. }
    destruct (AnyTransformer_transform t record tr) as [[v|e] tr1]; simpl in Hone; subst tr1.
    + destruct (negb (truthy v)); [ reflexivity | apply IH ].
    + reflexivity.
Qed.

(** The generator an initialized extractor holds sends requests of the
    plan only. *)
Lemma reachable_iterator (conf : ConfigTree) self q :
  reachable conf self ->
  RestApiExtractor._restapi_query (_extractor self) = CQuery q ->
  forall g rq,
    RestApiExtractor._iterator (_extractor self) = Some g ->
    rq ∈ requests g -> rq ∈ requests (execute q).
Proof.
  intros Hreach. revert q.
  induction Hreach as [ tr tr' self Hinit | self tr v self' tr' Hreach IH Hex ];
    intros q Hquery g rq Hg Hrq.
  - apply init_inv in Hinit
      as (q0 & rc & rq0 & tc & fn & dc & mc & _ & _ & _ & _ & _ & _ & _ & -> & _).
    discriminate.
  - destruct (extract_initialized_inv conf self tr v self' tr' Hreach Hex)
      as (record & tr1 & Hinner & _).
    simpl in Hinner.
    pose proof Hinner as Hkept. apply rest_extract_inv in Hkept as (Hkept & _).
    rewrite Hkept in Hquery.
    apply rest_extract_sends in Hinner as (sent & _ & Hsends).
    destruct (Hsends q Hquery (IH q Hquery)) as [_ Hleft].
    exact (Hleft record (_extractor self') g rq eq_refl Hg Hrq).
Qed.

(** X7. A call of [extract] on an initialized extractor only adds to
    the trace, whether it returns or raises, and every request it adds is
    a request of the plan built from the configuration (unless the
    configuration puts a query of its own under the scope of the REST
    extractor): [extract] sends nothing of its own. *)
Theorem extract_sends_requests_of_the_plan (conf : ConfigTree) self tr o tr' :
  reachable conf self ->
  scoped_entry conf rest_api_extractor_scope REST_API_QUERY = None ->
  extract self tr = (o, tr') ->
  exists q added,
    _build_restapi_query conf = Return q /\
    tr' = (tr ++ added)%list /\
    forall url params,
      EvHttpGet url params ∈ added -> (url, params) ∈ requests (execute q).
Proof.
  intros Hreach Hentry Hex.
  destruct (reachable_query conf self Hreach Hentry) as (q & Hq & Hquery & _).
  exists q.
  destruct (Extractor_extract (_extractor self) tr) as [[[record e']|exc] tr1] eqn:Hinner.
  - pose proof Hinner as Hsends. simpl in Hsends.
    apply rest_extract_sends in Hsends as (sent & -> & Hsends).
    destruct (Hsends q Hquery (reachable_iterator conf self q Hreach Hquery)) as [Hsent _].
    assert (Hrequest : forall url params (l : list Event),
               (forall ev, ev ∈ l -> exists x, ev = EvTransform x) ->
               EvHttpGet url params ∈ (map (uncurry EvHttpGet) sent ++ l)%list ->
               (url, params) ∈ requests (execute q)).
    { intros url params l Hl Hin. apply elem_of_app in Hin as [Hin | Hin].
      - apply list_elem_of_fmap in Hin as ([url' params'] & [= -> ->] & Hin). auto.
      - apply Hl in Hin as [x Hx]. discriminate. }
    destruct (truthy record) eqn:Htruthy.
    + rewrite (extract_of_truthy self tr record e' _ Hinner Htruthy) in Hex.
      pose proof (chain_silent (transformers (_transformer self)) record
                    ((tr ++ map (uncurry EvHttpGet) sent) ++ [EvTransform record])%list)
        as Hsilent.
      change (Transformer_transform (_transformer self) record)
        with (chain (transformers (_transformer self)) record) in Hex.
      destruct (chain _ _ _) as [[v|exc] tr2]; simpl in Hsilent; subst tr2;
        injection Hex as <- <-;
        exists (map (uncurry EvHttpGet) sent ++ [EvTransform record])%list;
        (split; [ exact Hq | ]); (split; [ now rewrite app_assoc | ]);
        intros url params Hin; apply (Hrequest url params [EvTransform record]); auto;
        intros ev Hev; apply list_elem_of_singleton in Hev; eauto.
    + rewrite (extract_of_falsy self tr record e' _ Hinner Htruthy) in Hex.
      injection Hex as <- <-.
      exists (map (uncurry EvHttpGet) sent). split; [ exact Hq | ]. split; [ reflexivity | ].
      intros url params Hin. apply (Hrequest url params []).
      * intros ev Hev. now apply elem_of_nil in Hev.
      * now rewrite app_nil_r.
  - rewrite (extract_of_raise self tr exc tr1 Hinner) in Hex. injection Hex as <- <-.
    simpl in Hinner. apply rest_extract_sends in Hinner as (sent & -> & Hsends).
    destruct (Hsends q Hquery (reachable_iterator conf self q Hreach Hquery)) as [Hsent _].
    exists (map (uncurry EvHttpGet) sent). split; [ exact Hq | ]. split; [ reflexivity | ].
    intros url params Hin.
    apply list_elem_of_fmap in Hin as ([url' params'] & [= -> ->] & Hin). auto.
Qed.

End Sending.

(** ** The end of the stream and the calls of the transformer *)

Section Stream.
Context `{Databuilder} `{Env}.

(** A record updated with a static record that holds the product is
    not empty. *)
Lemma update_static_truthy (static : gmap string ConfigValue) (record updated : gmap string json) :
  static !! "product" = Some (CStr "mode") ->
  RestApiExtractor.update_static record (CTree static) = Return updated ->
  truthy (PDict updated) = true.
Proof.
  intros Hproduct Hup. simpl in Hup.
  assert (Hsize : Nat.eqb (size static) 0 = false).
  { apply Nat.eqb_neq. intros Hsize. apply map_size_empty_iff in Hsize.
    rewrite Hsize, lookup_empty in Hproduct. discriminate. }
  rewrite Hsize in Hup. injection Hup as <-.
  simpl. apply negb_true_iff, Nat.eqb_neq. intros Hsize'.
  apply map_size_empty_iff in Hsize'.
  assert (Hlookup : (omap RestApiExtractor.config_json static ∪ record) !! "product"
                    = Some (JStr "mode")).
  { apply lookup_union_Some_l. rewrite lookup_omap, Hproduct. reflexivity. }
  rewrite Hsize', lookup_empty in Hlookup. discriminate.
Qed.

(** X8. When the configuration leaves the product of the static
    record alone, [extract] returns [None] on an initialized extractor
    only at the end of the stream: the generator of the REST extractor
    has ended, the transformer was not called, and every later call
    returns [None] and leaves the extractor and the trace as they are. *)
Theorem none_means_the_source_is_exhausted (conf : ConfigTree) self tr self' tr' :
  product_left_alone conf ->
  reachable conf self ->
  extract self tr = (Return (PNone, self'), tr') ->
  RestApiExtractor._iterator (_extractor self') = Some GStop /\
  transform_calls tr' = transform_calls tr /\
  forall n t, extract_n n self' t = (Return (repeat PNone n, self'), t).
Proof.
  intros Halone Hreach Hex.
  destruct (reachable_static_product conf self Halone Hreach) as (static & Hstatic & Hproduct).
  destruct (extract_initialized_inv conf self tr PNone self' tr' Hreach Hex)
    as (record & tr1 & Hinner & [(Hfalsy & _ & -> & _) | (_ & _ & t & m & n & _ & _ & _ & Hv)] & _);
    [ | discriminate ].
  simpl in Hinner.
  pose proof Hinner as Hsends. apply rest_extract_sends in Hsends as (sent & -> & _).
  apply rest_extract_inv in Hinner
    as (_ & _ & [[-> Hstop] | (r0 & updated & Hup & ->)]).
  - split; [ exact Hstop | ]. split.
    + clear. induction tr as [ | [url params | x] rest IH ]; simpl.
      * induction sent as [ | [url params] rest IH ]; [ reflexivity | exact IH ].
      * exact IH.
      * now rewrite IH.
    + pose proof (rest_api_extractor_exhausted _ Hstop) as Hexhausted.
      assert (Hone : forall t, extract self' t = (Return (PNone, self'), t)).
      { intros t.
        rewrite (extract_of_falsy self' t PNone (_extractor self') t (Hexhausted t) eq_refl).
        now destruct self'. }
      intros n. induction n as [ | n IH ]; intros t; simpl.
      * reflexivity.
      * rewrite (bind_Return _ _ _ _ _ (Hone t)). simpl.
        rewrite (bind_Return _ _ _ _ _ (IH t)). reflexivity.
  - rewrite Hstatic in Hup.
    rewrite (update_static_truthy static r0 updated Hproduct Hup) in Hfalsy. discriminate.
Qed.

Lemma transform_calls_app (tr1 tr2 : list Event) :
  transform_calls (tr1 ++ tr2) = (transform_calls tr1 ++ transform_calls tr2)%list.
Proof.
  induction tr1 as [ | [url params | x] rest IH ]; simpl; [ reflexivity | exact IH | ].
  now rewrite IH.
Qed.

Lemma transform_calls_requests (sent : list (string * gmap string HTTPBasicAuth)) :
  transform_calls (map (uncurry EvHttpGet) sent) = [].
Proof. induction sent as [ | [url params] rest IH ]; [ reflexivity | exact IH ]. Qed.

(** X9. A run of [n] calls of [extract] that return on an
    initialized extractor hands out [n] values, each [None] or a model,
    and calls the transformer once for every model: the calls recorded in
    the trace grow by as many records as there are values other than
    [None]. *)
Theorem one_transformer_call_per_model (conf : ConfigTree) (n : nat) self tr vs self' tr' :
  reachable conf self ->
  extract_n n self tr = (Return (vs, self'), tr') ->
  length vs = n /\
  Forall (fun v => v = PNone \/ exists cls kwargs, v = PModel cls kwargs) vs /\
  exists records,
    transform_calls tr' = (transform_calls tr ++ records)%list /\
    length records = length (List.filter truthy vs).
Proof.
  revert self tr vs self' tr'.
  induction n as [ | n IH ]; intros self tr vs self' tr' Hreach Hrun; simpl in Hrun.
  - injection Hrun as <- <- <-. split; [ reflexivity | ]. split; [ constructor | ].
    exists []. now rewrite app_nil_r.
  - apply bind_inv in Hrun as ([v self1] & tr1 & Hex & Hrun).
    apply bind_inv in Hrun as ([others self2] & tr2 & Hothers & Hrun).
    injection Hrun as <- <- <-. simpl in Hothers.
    pose proof (reachable_extract conf self tr v self1 tr1 Hreach Hex) as Hreach1.
    destruct (IH self1 tr1 others self2 tr2 Hreach1 Hothers)
      as (Hlength & Hall & records & Hcalls & Hrecords).
    destruct (extract_initialized_inv conf self tr v self1 tr1 Hreach Hex)
      as (record & tr0 & Hinner & Hcases & _).
    simpl in Hinner. apply rest_extract_sends in Hinner as (sent & -> & _).
    simpl. split; [ now rewrite Hlength | ].
    destruct Hcases as [(_ & -> & -> & _) | (_ & -> & t & m & normalized & _ & _ & _ & ->)].
    + split; [ constructor; auto | ].
      exists records. simpl. split; [ | exact Hrecords ].
      rewrite Hcalls, transform_calls_app, transform_calls_requests, app_nil_r. reflexivity.
    + split; [ constructor; eauto | ].
      exists (record :: records). simpl. split; [ | now rewrite Hrecords ].
      rewrite Hcalls, !transform_calls_app, transform_calls_requests, app_nil_r.
      simpl. now rewrite <- app_assoc.
Qed.

End Stream.

(** ** The arguments of the models *)

Section Arguments.
Context `{Databuilder} `{Env}.

(** The record [next] hands out is a record of the generator, and so
    are the records of the generator it leaves. *)
Lemma next_yields (g : Generator) tr step tr' :
  next g tr = (Return step, tr') ->
  (forall r, fst step = Some r -> r ∈ yields g) /\
  (forall r, r ∈ yields (snd step) -> r ∈ yields g).
Proof.
  revert tr. induction g as [ | e | url params rest IH | r0 rest IH ]; simpl; intros tr Hnext.
  - injection Hnext as <- <-. split; [ discriminate | auto ].
  - discriminate.
  - unfold bind, emit in Hnext. simpl in Hnext. now apply IH in Hnext.
  - injection Hnext as <- <-. simpl. split.
    + intros r [= <-]. apply elem_of_cons. now left.
    + intros r Hr. apply elem_of_cons. now right.
Qed.

Lemma rest_extract_yields (e : RestApiExtractor.RestAPIExtractor) q tr v e' tr' :
  RestApiExtractor.extract e tr = (Return (v, e'), tr') ->
  RestApiExtractor._restapi_query e = CQuery q ->
  (forall g r, RestApiExtractor._iterator e = Some g -> r ∈ yields g -> r ∈ yields (execute q)) ->
  (v = PNone \/
   exists r updated,
     r ∈ yields (execute q) /\
     RestApiExtractor.update_static r (RestApiExtractor._static_dict e) = Return updated /\
     v = PDict updated) /\
  (forall g r, RestApiExtractor._iterator e' = Some g -> r ∈ yields g -> r ∈ yields (execute q)).
Proof.
  unfold RestApiExtractor.extract. intros Hex Hquery Hinv.
  apply bind_inv in Hex as (g0 & tr0 & Hstart & Hex).
  assert (Hg0 : forall r, r ∈ yields g0 -> r ∈ yields (execute q)).
  { destruct (RestApiExtractor._iterator e) as [g|].
    - injection Hstart as <- <-. intros r. now apply Hinv.
    - rewrite Hquery in Hstart. injection Hstart as <- <-. auto. }
  apply bind_inv in Hex as (step & tr1 & Hnext & Hex).
  apply next_yields in Hnext as [Hrecord Hleft]. cbv zeta in Hex.
  destruct (fst step) as [r|].
  - apply bind_inv in Hex as (updated & tr2 & Hup & Hex).
    apply lift_inv in Hup as [Hup _].
    injection Hex as <- <- <-. split.
    + right. exists r, updated. auto.
    + simpl. intros g r' [= <-]. auto.
  - injection Hex as <- <- <-. split; [ now left | ].
    simpl. intros g r' [= <-]. auto.
Qed.

Lemma reachable_iterator_yields (conf : ConfigTree) self q :
  reachable conf self ->
  RestApiExtractor._restapi_query (_extractor self) = CQuery q ->
  forall g r,
    RestApiExtractor._iterator (_extractor self) = Some g ->
    r ∈ yields g -> r ∈ yields (execute q).
Proof.
  intros Hreach. revert q.
  induction Hreach as [ tr tr' self Hinit | self tr v self' tr' Hreach IH Hex ];
    intros q Hquery g r Hg Hr.
  - apply init_inv in Hinit
      as (q0 & rc & rq0 & tc & fn & dc & mc & _ & _ & _ & _ & _ & _ & _ & -> & _).
    discriminate.
  - destruct (extract_initialized_inv conf self tr v self' tr' Hreach Hex)
      as (record & tr1 & Hinner & _).
    simpl in Hinner.
    pose proof Hinner as Hkept. apply rest_extract_inv in Hkept as (Hkept & _).
    rewrite Hkept in Hquery.
    destruct (rest_extract_yields _ q _ _ _ _ Hinner Hquery (IH q Hquery)) as [_ Hleft].
    exact (Hleft g r Hg Hr).
Qed.

(** The static record is added to a record; it takes no field away. *)
Lemma update_static_keeps (record updated : gmap string json) (static_dict : ConfigValue)
    (k : string) :
  RestApiExtractor.update_static record static_dict = Return updated ->
  is_Some (record !! k) -> is_Some (updated !! k).
Proof.
  destruct static_dict as [ s | q | t ]; simpl.
  - destruct (String.eqb s ""); [ now intros [= <-] | discriminate ].
  - discriminate.
  - destruct (Nat.eqb (size t) 0); intros [= <-]; [ auto | ].
    intros Hk. apply lookup_union_is_Some. now right.
Qed.

(** X10. Every model [extract] returns on an initialized extractor
    is built with the organization and the five fields of the plan among
    its keyword arguments, whatever the static record and the timestamp
    transformer are configured to do (unless the configuration puts a
    query of its own under the scope of the REST extractor). *)
Theorem returned_models_bind_all_fields (conf : ConfigTree) self tr cls kwargs self' tr' :
  reachable conf self ->
  scoped_entry conf rest_api_extractor_scope REST_API_QUERY = None ->
  extract self tr = (Return (PModel cls kwargs, self'), tr') ->
  Forall (fun name => is_Some (kwargs !! name))
         [ "organization"; "dashboard_group_id"; "dashboard_id"; "last_run_resource_path";
           "execution_state"; "execution_timestamp" ].
Proof.
  intros Hreach Hentry Hex.
  destruct (reachable_query conf self Hreach Hentry) as (q & Hq & Hquery & _).
  destruct (extract_initialized_inv conf self tr _ self' tr' Hreach Hex)
    as (record & tr1 & Hinner
        & [(_ & Hv & _) | (_ & _ & t & m & normalized & _ & Hts & _ & Hv)] & _);
    [ discriminate | ].
  injection Hv as -> ->.
  simpl in Hinner.
  destruct (rest_extract_yields _ q _ _ _ _ Hinner Hquery
              (reachable_iterator_yields conf self q Hreach Hquery))
    as [[-> | (r & updated & Hr & Hup & ->)] _].
  { apply timestamp_transform_inv in Hts as (d & n & Hd & _). discriminate. }
  destruct (plan_records_fields conf q r Hq Hr) as (organization & _ & Horg & Hfields).
  assert (Hkept : forall k, is_Some (r !! k) -> is_Some (normalized !! k)).
  { intros k Hk. apply (update_static_keeps _ _ _ k Hup) in Hk.
    apply timestamp_transform_inv in Hts
      as (d & n & [= <-] & [= <-] & _ & _ & [-> | (s & epoch & _ & _ & ->)]);
      [ exact Hk | ].
    destruct (decide (_field_name t = k)) as [-> | Hne].
    - rewrite lookup_insert_eq. eauto.
    - now rewrite lookup_insert_ne. }
  constructor; [ apply Hkept; rewrite Horg; eauto | ].
  eapply Forall_impl; [ exact Hfields | ]. exact Hkept.
Qed.

End Arguments.

(** ** The first call *)

Section FirstCall.
Context `{Databuilder} `{Env}.

Lemma format_spaces_url (organization : string) :
  _preprocess_url spaces_url {[ "organization" := JStr organization ]}
  = Return ("https://app.mode.com/api/" +:+ organization +:+ "/spaces?filter=all").
Proof. vm_compute. reflexivity. Qed.

(** A step whose URL can be filled starts with its request. *)
Lemma join_step_request (st : Step) (r : gmap string json) (url : string) :
  _preprocess_url (step_url st) r = Return url ->
  exists g, join_step st r = GRequest url (step_params st) g.
Proof. unfold join_step. intros ->. eauto. Qed.

(** The plan starts with the request for the spaces of the
    organization. *)
Lemma execute_starts_with_spaces (conf : ConfigTree) (q : BaseRestApiQuery) :
  _build_restapi_query conf = Return q ->
  exists organization user_token password_token g,
    get_string conf ORGANIZATION = Return organization /\
    get_string conf MODE_ACCESS_TOKEN = Return user_token /\
    get_string conf MODE_PASSWORD_TOKEN = Return password_token /\
    execute q =
      GRequest ("https://app.mode.com/api/" +:+ organization +:+ "/spaces?filter=all")
               {[ "auth" := mkHTTPBasicAuth user_token password_token ]} g.
Proof.
  intros Hq.
  pose proof (build_restapi_query_cases conf) as Hcases.
  rewrite !get_string_top by reflexivity.
  destruct (conf !! ORGANIZATION) as [organization|]; [ | congruence ].
  destruct (conf !! MODE_ACCESS_TOKEN) as [user_token|]; [ | congruence ].
  destruct (conf !! MODE_PASSWORD_TOKEN) as [password_token|]; [ | congruence ].
  destruct Hcases as (q' & Hq' & Hseed & Hsteps).
  assert (q' = q) as -> by congruence.
  cbv zeta in Hsteps.
  exists (config_str organization), (config_str user_token), (config_str password_token).
  rewrite execute_steps, Hsteps, Hseed.
  cbn [foldl gen_of_list foldr for_each].
  match goal with
  | |- context [ join_step ?st {[ "organization" := JStr ?o ]} ] =>
      destruct (join_step_request st {[ "organization" := JStr o ]} _ (format_spaces_url o))
        as [g Hg]
  end.
  rewrite Hg. cbn [gen_app for_each step_params]. eauto.
Qed.

(** The first call of the REST extractor sends the first request of
    its query before anything else. *)
Lemma rest_extract_first (e : RestApiExtractor.RestAPIExtractor) q url params g tr o tr' :
  RestApiExtractor._iterator e = None ->
  RestApiExtractor._restapi_query e = CQuery q ->
  execute q = GRequest url params g ->
  RestApiExtractor.extract e tr = (o, tr') ->
  exists sent, tr' = (tr ++ EvHttpGet url params :: map (uncurry EvHttpGet) sent)%list.
Proof.
  intros Hiterator Hquery Hexecute Hex.
  assert (Hlater : RestApiExtractor.extract
                     {| RestApiExtractor._restapi_query := RestApiExtractor._restapi_query e;
                        RestApiExtractor._iterator := Some g;
                        RestApiExtractor._static_dict := RestApiExtractor._static_dict e |}
                     (tr ++ [EvHttpGet url params])%list = (o, tr')).
  { rewrite <- Hex. unfold RestApiExtractor.extract.
    rewrite Hiterator, Hquery, Hexecute. reflexivity. }
  apply rest_extract_sends in Hlater as (sent & -> & _).
  exists sent. now rewrite <- app_assoc.
Qed.

(** A call of [extract] on an initialized extractor leaves the trace
    of its REST extractor, followed by the call of the transformer when
    there is one. *)
Lemma extract_trace (conf : ConfigTree) self tr o tr' :
  reachable conf self ->
  extract self tr = (o, tr') ->
  exists calls,
    tr' = (snd (Extractor_extract (_extractor self) tr) ++ calls)%list /\
    (calls = [] \/ exists record, calls = [EvTransform record]).
Proof.
  intros Hreach Hex.
  destruct (Extractor_extract (_extractor self) tr) as [[[record e']|exc] tr1] eqn:Hinner.
  - destruct (truthy record) eqn:Htruthy.
    + rewrite (extract_of_truthy self tr record e' _ Hinner Htruthy) in Hex.
      pose proof (chain_silent (transformers (_transformer self)) record
                    (tr1 ++ [EvTransform record])%list) as Hsilent.
      change (Transformer_transform (_transformer self) record)
        with (chain (transformers (_transformer self)) record) in Hex.
      destruct (chain _ _ _) as [[v|exc] tr2]; simpl in Hsilent; subst tr2;
        injection Hex as <- <-; exists [EvTransform record]; eauto.
    + rewrite (extract_of_falsy self tr record e' _ Hinner Htruthy) in Hex.
      injection Hex as <- <-. exists []. rewrite app_nil_r. auto.
  - rewrite (extract_of_raise self tr exc tr1 Hinner) in Hex. injection Hex as <- <-.
    exists []. rewrite app_nil_r. auto.
Qed.

(** X11. The first call of [extract] on the extractor [init]
    returned starts with the request for the spaces of the configured
    organization, with the configured tokens, whatever the server
    answers and whether the call returns or raises (unless the
    configuration puts a query of its own under the scope of the REST
    extractor). *)
Theorem first_call_asks_for_the_spaces (conf : ConfigTree) self tr0 tr0' tr o tr' :
  init conf tr0 = (Return self, tr0') ->
  scoped_entry conf rest_api_extractor_scope REST_API_QUERY = None ->
  extract self tr = (o, tr') ->
  exists organization user_token password_token later,
    get_string conf ORGANIZATION = Return organization /\
    get_string conf MODE_ACCESS_TOKEN = Return user_token /\
    get_string conf MODE_PASSWORD_TOKEN = Return password_token /\
    tr' = (tr ++
           EvHttpGet ("https://app.mode.com/api/" +:+ organization +:+ "/spaces?filter=all")
                     {[ "auth" := mkHTTPBasicAuth user_token password_token ]}
           :: later)%list.
Proof.
  intros Hinit Hentry Hex.
  pose proof (reachable_init conf tr0 tr0' self Hinit) as Hreach.
  destruct (reachable_query conf self Hreach Hentry) as (q & Hq & Hquery & _).
  assert (Hiterator : RestApiExtractor._iterator (_extractor self) = None).
  { apply init_inv in Hinit
      as (q0 & rc & rq0 & tc & fn & dc & mc & _ & _ & _ & _ & _ & _ & _ & -> & _).
    reflexivity. }
  destruct (execute_starts_with_spaces conf q Hq)
    as (organization & user_token & password_token & g & Horg & Huser & Hpw & Hexecute).
  exists organization, user_token, password_token.
  destruct (extract_trace conf self tr o tr' Hreach Hex) as (calls & -> & _).
  destruct (Extractor_extract (_extractor self) tr) as [o1 tr1] eqn:Hinner.
  simpl in Hinner.
  destruct (rest_extract_first _ q _ _ g tr o1 tr1 Hiterator Hquery Hexecute Hinner)
    as (sent & ->).
  exists (map (uncurry EvHttpGet) sent ++ calls)%list.
  split; [ exact Horg | ]. split; [ exact Huser | ]. split; [ exact Hpw | ].
  simpl. now rewrite <- app_assoc.
Qed.

End FirstCall.

(** ** The organization [acme], again *)

Section AcmeFurther.
Import Instances.
#[local] Existing Instance databuilder.
#[local] Existing Instance acme.

Lemma acme_keeps_the_query :
  scoped_entry acme_conf rest_api_extractor_scope REST_API_QUERY = None.
Proof. vm_compute. reflexivity. Qed.

Lemma acme_keeps_the_model_class :
  scoped_entry acme_conf dict_to_model_scope MODEL_CLASS = None.
Proof. vm_compute. reflexivity. Qed.

Lemma acme_yields : yields (execute acme_query) = [delete "product" acme_record].
Proof. vm_compute. reflexivity. Qed.

Lemma acme_requests :
  requests (execute acme_query)
  = [ ("https://app.mode.com/api/acme/spaces?filter=all", acme_params);
      ("https://app.mode.com/api/acme/spaces/sp1/reports", acme_params);
      ("https://app.mode.com/runs/1", acme_params) ].
Proof. vm_compute. reflexivity. Qed.

Lemma acme_second_extract :
  extract acme_exhausted acme_trace = (Return (PNone, acme_exhausted), acme_trace).
Proof. vm_compute. reflexivity. Qed.

Lemma acme_two_extracts :
  extract_n 2 acme_initialized [] = (Return ([acme_model; PNone], acme_exhausted), acme_trace).
Proof. vm_compute. reflexivity. Qed.

Lemma acme_exhausted_reachable : reachable acme_conf acme_exhausted.
Proof.
  exact (reachable_extract acme_conf acme_initialized [] acme_model acme_exhausted acme_trace
           acme_reachable acme_first_extract).
Qed.

Lemma init_returns_only_with_keys_and_trees_witness :
  init acme_conf [] = (Return acme_initialized, []) /\
  is_Some (acme_conf !! ORGANIZATION) /\
  is_Some (acme_conf !! MODE_ACCESS_TOKEN) /\
  is_Some (acme_conf !! MODE_PASSWORD_TOKEN).
Proof.
  split; [ exact acme_init | ].
  exact (proj1 (init_returns_only_with_keys_and_trees acme_conf [] acme_initialized []
                  acme_init)).
Defined.

Lemma built_query_is_the_one_executed_witness :
  reachable acme_conf acme_initialized /\
  exists q,
    _build_restapi_query acme_conf = Return q /\
    RestApiExtractor._restapi_query (_extractor acme_initialized)
    = default (CQuery q) (scoped_entry acme_conf rest_api_extractor_scope REST_API_QUERY).
Proof.
  split; [ exact acme_reachable | ].
  destruct (built_query_is_the_one_executed acme_conf acme_initialized acme_reachable)
    as (q & Hq & Hquery & _).
  exists q. auto.
Defined.

Lemma returned_models_are_dashboard_executions_witness :
  scoped_entry acme_conf dict_to_model_scope MODEL_CLASS = None /\
  reachable acme_conf acme_initialized /\
  extract acme_initialized [] = (Return (acme_model, acme_exhausted), acme_trace) /\
  acme_model <> PNone /\
  exists kwargs,
    acme_model
    = PModel "databuilder.models.dashboard.dashboard_execution.DashboardExecution" kwargs.
Proof.
  assert (Hmodel : acme_model <> PNone) by discriminate.
  split; [ exact acme_keeps_the_model_class | ]. split; [ exact acme_reachable | ].
  split; [ exact acme_first_extract | ]. split; [ exact Hmodel | ].
  exact (returned_models_are_dashboard_executions acme_conf acme_initialized [] acme_model
           acme_exhausted acme_trace acme_keeps_the_model_class acme_reachable
           acme_first_extract Hmodel).
Defined.

Lemma plan_records_bind_all_fields_witness :
  _build_restapi_query acme_conf = Return acme_query /\
  delete "product" acme_record ∈ yields (execute acme_query) /\
  exists organization,
    get_string acme_conf ORGANIZATION = Return organization /\
    delete "product" acme_record !! "organization" = Some (JStr organization).
Proof.
  assert (Hin : delete "product" acme_record ∈ yields (execute acme_query)).
  { rewrite acme_yields. apply list_elem_of_singleton. reflexivity. }
  split; [ exact acme_plan | ]. split; [ exact Hin | ].
  destruct (plan_records_bind_all_fields acme_conf acme_query _ acme_plan Hin)
    as (organization & Horg & Hrecord & _).
  exists organization. auto.
Defined.

Lemma plan_requests_go_to_mode_witness :
  _build_restapi_query acme_conf = Return acme_query /\
  ("https://app.mode.com/runs/1", acme_params) ∈ requests (execute acme_query) /\
  exists path, "https://app.mode.com/runs/1" = "https://app.mode.com" +:+ path.
Proof.
  assert (Hin : ("https://app.mode.com/runs/1", acme_params) ∈ requests (execute acme_query)).
  { rewrite acme_requests. repeat constructor. }
  split; [ exact acme_plan | ]. split; [ exact Hin | ].
  exact (proj1 (plan_requests_go_to_mode acme_conf acme_query _ _ acme_plan Hin)).
Defined.

Lemma extract_sends_requests_of_the_plan_witness :
  reachable acme_conf acme_initialized /\
  scoped_entry acme_conf rest_api_extractor_scope REST_API_QUERY = None /\
  extract acme_initialized [] = (Return (acme_model, acme_exhausted), acme_trace) /\
  exists q added,
    _build_restapi_query acme_conf = Return q /\
    acme_trace = ([] ++ added)%list.
Proof.
  split; [ exact acme_reachable | ]. split; [ exact acme_keeps_the_query | ].
  split; [ exact acme_first_extract | ].
  destruct (extract_sends_requests_of_the_plan acme_conf acme_initialized [] _ _
              acme_reachable acme_keeps_the_query acme_first_extract)
    as (q & added & Hq & Htrace & _).
  exists q, added. auto.
Defined.

Lemma none_means_the_source_is_exhausted_witness :
  product_left_alone acme_conf /\
  reachable acme_conf acme_exhausted /\
  extract acme_exhausted acme_trace = (Return (PNone, acme_exhausted), acme_trace) /\
  RestApiExtractor._iterator (_extractor acme_exhausted) = Some GStop /\
  extract_n 2 acme_exhausted [] = (Return ([PNone; PNone], acme_exhausted), []).
Proof.
  split; [ exact acme_product_left_alone | ]. split; [ exact acme_exhausted_reachable | ].
  split; [ exact acme_second_extract | ].
  destruct (none_means_the_source_is_exhausted acme_conf acme_exhausted acme_trace
              acme_exhausted acme_trace acme_product_left_alone acme_exhausted_reachable
              acme_second_extract) as (Hstop & _ & Hlater).
  split; [ exact Hstop | ]. exact (Hlater 2%nat []).
Defined.

Lemma one_transformer_call_per_model_witness :
  reachable acme_conf acme_initialized /\
  extract_n 2 acme_initialized [] = (Return ([acme_model; PNone], acme_exhausted), acme_trace) /\
  exists records,
    transform_calls acme_trace = (transform_calls [] ++ records)%list /\
    length records = length (List.filter truthy [acme_model; PNone]).
Proof.
  split; [ exact acme_reachable | ]. split; [ exact acme_two_extracts | ].
  exact (proj2 (proj2 (one_transformer_call_per_model acme_conf 2 acme_initialized [] _ _ _
                         acme_reachable acme_two_extracts))).
Defined.

Lemma returned_models_bind_all_fields_witness :
  reachable acme_conf acme_initialized /\
  scoped_entry acme_conf rest_api_extractor_scope REST_API_QUERY = None /\
  extract acme_initialized []
  = (Return (PModel DASHBOARD_EXECUTION (<["execution_timestamp" := JNum 1609459200]> acme_record),
             acme_exhausted), acme_trace) /\
  Forall (fun name =>
            is_Some (<["execution_timestamp" := JNum 1609459200]> acme_record !! name))
         [ "organization"; "dashboard_group_id"; "dashboard_id"; "last_run_resource_path";
           "execution_state"; "execution_timestamp" ].
Proof.
  split; [ exact acme_reachable | ]. split; [ exact acme_keeps_the_query | ].
  split; [ exact acme_first_extract | ].
  exact (returned_models_bind_all_fields acme_conf acme_initialized [] _ _ _ _
           acme_reachable acme_keeps_the_query acme_first_extract).
Defined.

Lemma first_call_asks_for_the_spaces_witness :
  init acme_conf [] = (Return acme_initialized, []) /\
  scoped_entry acme_conf rest_api_extractor_scope REST_API_QUERY = None /\
  extract acme_initialized [] = (Return (acme_model, acme_exhausted), acme_trace) /\
  exists organization user_token password_token later,
    acme_trace =
      ([] ++
       EvHttpGet ("https://app.mode.com/api/" +:+ organization +:+ "/spaces?filter=all")
                 {[ "auth" := mkHTTPBasicAuth user_token password_token ]}
       :: later)%list.
Proof.
  split; [ exact acme_init | ]. split; [ exact acme_keeps_the_query | ].
  split; [ exact acme_first_extract | ].
  destruct (first_call_asks_for_the_spaces acme_conf acme_initialized [] [] [] _ _
              acme_init acme_keeps_the_query acme_first_extract)
    as (organization & user_token & password_token & later & _ & _ & _ & Htrace).
  exists organization, user_token, password_token, later. exact Htrace.
Defined.

End AcmeFurther.
